(** * gfx_hat_stats: page model, rolling series, rate estimator and graph
      renderer of [gfx_hat_stats.py]

    A shallow embedding of the display script.  Module-level globals
    ([current_page], [cpu_history], [net_history], [last_net_io]) become the
    fields of one [world] record that every function threads explicitly; the
    values obtained from the operating system during one render pass are the
    fields of a [readings] record.  Calls on the PIL [draw] object are kept
    as a log of drawing commands, and the pixels they light are given by
    [paint].

    Numbers.  Python [int] is [Z].  A Python [float] is the rational [Q] it
    stands for; NaN, the infinities and results beyond the largest finite
    float have no counterpart here.  Where a float is truncated to an integer
    (the bar heights of the graph) every operation is rounded to binary64 by
    [round64]; the rates of the rate estimator and the value derived from
    them keep the exact quotient, whose rounding changes the last bit of a
    rate only.  Rates are compared with [==]. *)

From Stdlib Require Import ZArith QArith Qround Qpower Lqa Lia List String Bool.
From stdpp Require Import base option list strings gmap.

Local Open Scope Z_scope.

(** ** Python values and exceptions *)

Inductive exn : Type :=
| ZeroDivisionError
| AttributeError
| IndexError
| OSError
| ValueError.

Inductive result (A : Type) : Type :=
| Ok (a : A)
| Raise (e : exn).
Arguments Ok {A} a.
Arguments Raise {A} e.

Definition bind {A B : Type} (m : result A) (k : A -> result B) : result B :=
  match m with
  | Ok a => k a
  | Raise e => Raise e
  end.

Notation "'let!' x ':=' m 'in' k" := (bind m (fun x => k))
  (at level 10, x pattern, m at level 100, k at level 200).

(** [try: m except Exception: d] *)
Definition try_except {A : Type} (m : result A) (d : A) : A :=
  match m with
  | Ok a => a
  | Raise _ => d
  end.

Definition Qltb (a b : Q) : bool := negb (Qle_bool b a).

(** [a / b] on floats: raises on a zero divisor.  A division by a non-zero
    literal ([/ 1024], [/ 1000]) cannot raise and is written [/] directly. *)
Definition truediv (a b : Q) : result Q :=
  if Qeq_bool b 0 then Raise ZeroDivisionError else Ok (a / b)%Q.

(** [int(q)]: truncation toward zero. *)
Definition py_int (q : Q) : Z := Z.quot (Qnum q) (Z.pos (Qden q)).

(** To the nearest integer, ties to the even one: Python's [round], and the
    rounding of a binary64 significand. *)
Definition round_half_even (q : Q) : Z :=
  let f := Qfloor q in
  let r := (q - inject_Z f)%Q in
  if Qltb r (1 # 2) then f
  else if Qltb (1 # 2) r then f + 1
  else if Z.even f then f else f + 1.

(** [floor(log2 x)] of a positive rational. *)
Definition ilog2 (x : Q) : Z :=
  let k := Z.log2 (Qnum x) - Z.log2 (Z.pos (Qden x)) in
  if Qle_bool (2 ^ k) x then k else k - 1.

(** The binary64 value nearest to a positive rational, ties to even: 53
    significant bits, on the grid of 2^-1074 below 2^-1022. *)
Definition round64_pos (x : Q) : Q :=
  let e := Z.max (ilog2 x - 52) (-1074) in
  (inject_Z (round_half_even (x * 2 ^ (- e))) * 2 ^ e)%Q.

(** The result of a float operation whose exact result is [x]. *)
Definition round64 (x : Q) : Q :=
  if Qltb 0 x then round64_pos x
  else if Qltb x 0 then (- round64_pos (- x))%Q
  else 0%Q.

(** [min(a, b)] on floats: the first of the two unless the second is
    strictly smaller. *)
Definition min_float (a b : Q) : Q := if Qltb b a then b else a.

(** Truth value of an optional float: [None] and [0.0] are false. *)
Definition truthy (v : option Q) : bool :=
  match v with
  | None => false
  | Some q => negb (Qeq_bool q 0)
  end.

(** ** [collections.deque] with [maxlen] *)

Module Deque.

Record deque (A : Type) : Type := mk { items : list A; maxlen : nat }.
Arguments mk {A} items maxlen.
Arguments items {A} d.
Arguments maxlen {A} d.

(** [d.append(x)]: when the deque is full the oldest item is discarded
    from the left end. *)
Definition append {A : Type} (d : deque A) (x : A) : deque A :=
  let l := items d ++ [x] in
  mk (if (maxlen d <? length l)%nat then tail l else l) (maxlen d).

(** [deque(iterable, maxlen=n)] *)
Definition new {A : Type} (init : list A) (n : nat) : deque A :=
  fold_left append init (mk [] n).

Definition len {A : Type} (d : deque A) : nat := length (items d).

End Deque.

(** ** Module-level constants and globals *)

Definition WIDTH : Z := 128.
Definition HEIGHT : Z := 64.
Definition total_pages : Z := 3.
Definition COPYPARTY_PORT : Z := 8080.
Definition FONT_SIZE : Z := 12.

(** The dictionary stored in [last_net_io]. *)
Record snapshot : Type := Snapshot {
  snap_bytes_sent : Z;
  snap_bytes_recv : Z;
  snap_time : Q
}.

(** What [psutil.net_io_counters()] returns: [bytes_sent], [bytes_recv]. *)
Record net_io_counters : Type := NetIO {
  bytes_sent : Z;
  bytes_recv : Z
}.

(** ** [get_network_usage] *)

(** The dictionary built from a reading taken at [current_time]. *)
Definition stored (net_io : net_io_counters) (current_time : Q) : snapshot :=
  Snapshot (bytes_sent net_io) (bytes_recv net_io) current_time.

(** The body of the [try] block: the new value of [last_net_io] and the
    returned rate, or the exception that escaped. *)
Definition get_network_usage_body
    (counters : result net_io_counters) (current_time : Q)
    (last_net_io : option snapshot) : result (option snapshot * Q) :=
  let! net_io := counters in
  let store := Some (stored net_io current_time) in
  match last_net_io with
  | Some last =>
      let d_sent := bytes_sent net_io - snap_bytes_sent last in
      let d_recv := bytes_recv net_io - snap_bytes_recv last in
      let time_delta := (current_time - snap_time last)%Q in
      if Qltb 0 time_delta then
        let! kb_per_sec :=
          truediv (inject_Z (d_sent + d_recv) / 1024)%Q time_delta in
        Ok (store, kb_per_sec)
      else Ok (store, 0%Q)
  | None => Ok (store, 0%Q)
  end.

(** [except Exception: return 0]: nothing was assigned before a raise, so
    the global keeps its value. *)
Definition get_network_usage
    (counters : result net_io_counters) (current_time : Q)
    (last_net_io : option snapshot) : option snapshot * Q :=
  try_except (get_network_usage_body counters current_time last_net_io)
             (last_net_io, 0%Q).

(** ** The PIL drawing surface *)

(** The pieces of an f-string, in order. *)
Inductive piece : Type :=
| Lit (s : string)                 (* literal text *)
| FmtStr (s : string)              (* [{s}] *)
| FmtInt (n : Z)                   (* [{n}] *)
| FmtFix (digits : nat) (q : Q)    (* [{q:.<digits>f}] *)
| Strftime (fmt : string) (now : Z). (* [now.strftime(fmt)] *)

Inductive font : Type :=
| TrueType (size : Z)    (* [ImageFont.truetype(fonts.BitbuntuFull, size)] *)
| DefaultFont.           (* [ImageFont.load_default()] *)

(** One call on the [ImageDraw] object. *)
Inductive draw_cmd : Type :=
| DText (xy : Z * Z) (text : list piece) (f : font) (fill : Z)
| DRectangle (p0 p1 : Z * Z) (outline fill : Z)
| DLine (p0 p1 : Z * Z) (fill : Z).

(** The calls made on a [draw] object so far, oldest first. *)
Definition drawing : Type := list draw_cmd.

(** Pixel values of the [WIDTH] x [HEIGHT] image, read at (x, y). *)
Definition image : Type := Z -> Z -> Z.

Definition blank : image := fun _ _ => 0.

Definition in_image (x y : Z) : bool :=
  (0 <=? x) && (x <? WIDTH) && (0 <=? y) && (y <? HEIGHT).

Definition between (a b v : Z) : bool :=
  (Z.min a b <=? v) && (v <=? Z.max a b).

(** What PIL does to the image for the calls the graph renderer makes: a
    rectangle covers both corners, its outline is one pixel wide and the
    rest is filled (the outline of a rectangle of one row also reaches the
    two corner pixels of the row below); a line covers both end points;
    points outside the image are dropped.  Text and slanted lines are
    outside the modelled part ([None]). *)
Definition paint_cmd (c : draw_cmd) (img : image) : option image :=
  match c with
  | DRectangle (x0, y0) (x1, y1) outline fill =>
      if (x0 <=? x1) && (y0 <=? y1) then
        Some (fun x y =>
                if in_image x y && (x0 <=? x) && (x <=? x1)
                   && (y0 <=? y) && (y <=? y1)
                then if (x =? x0) || (x =? x1) || (y =? y0) || (y =? y1)
                     then outline else fill
                else if in_image x y && (y0 =? y1) && (y =? y0 + 1)
                        && ((x =? x0) || (x =? x1))
                then outline
                else img x y)
      else None
  | DLine (x0, y0) (x1, y1) fill =>
      if x0 =? x1 then
        Some (fun x y =>
                if in_image x y && (x =? x0) && between y0 y1 y
                then fill else img x y)
      else if y0 =? y1 then
        Some (fun x y =>
                if in_image x y && (y =? y0) && between x0 x1 x
                then fill else img x y)
      else None
  | DText _ _ _ _ => None
  end.

Fixpoint paint (d : drawing) (img : image) : option image :=
  match d with
  | [] => Some img
  | c :: d' =>
      match paint_cmd c img with
      | Some img' => paint d' img'
      | None => None
      end
  end.

(** ** [draw_graph] *)

(** The two assignments to [bar_height]; [value] and [max_value] are floats.
    The quotient, the integer [height - 2] taken as a float, and their
    product are each rounded to binary64 before [int] truncates. *)
Definition bar_height (value max_value : Q) (height : Z) : result Z :=
  let! ratio := truediv value max_value in
  let span := round64 (inject_Z (height - 2)) in
  let bar := py_int (round64 (round64 ratio * span)) in
  Ok (Z.min bar (height - 2)).

(** [draw.rectangle([p0, p1], outline=..., fill=...)]: PIL refuses a box
    whose second corner lies left of or above the first. *)
Definition draw_rectangle (draw : drawing) (p0 p1 : Z * Z) (outline fill : Z)
    : result drawing :=
  if (fst p1 <? fst p0) || (snd p1 <? snd p0) then Raise ValueError
  else Ok (draw ++ [DRectangle p0 p1 outline fill]).

(** [for x, value in enumerate(data)], from index [x] on. *)
Fixpoint draw_graph_loop (draw : drawing) (x : Z) (data : list Q)
    (y_start height : Z) (max_value : Q) : result drawing :=
  match data with
  | [] => Ok draw
  | value :: rest =>
      if Qltb 0 value then
        let! bar := bar_height value max_value height in
        if 0 <? bar then
          let y_bottom := y_start + height - 2 in
          let y_top := y_bottom - bar in
          draw_graph_loop (draw ++ [DLine (x + 1, y_top) (x + 1, y_bottom) 1])
                          (x + 1) rest y_start height max_value
        else draw_graph_loop draw (x + 1) rest y_start height max_value
      else draw_graph_loop draw (x + 1) rest y_start height max_value
  end.

Definition draw_graph (draw : drawing) (data : Deque.deque Q)
    (y_start height : Z) (max_value : Q) : result drawing :=
  if (Deque.len data =? 0)%nat then Ok draw
  else
    let! draw :=
      draw_rectangle draw (0, y_start) (WIDTH - 1, y_start + height - 1) 1 0 in
    draw_graph_loop draw 0 (Deque.items data) y_start height max_value.

(** ** Readings taken from the operating system during one render pass *)

(** What [psutil.disk_usage] and [psutil.virtual_memory] return. *)
Record usage : Type := Usage {
  percent : Q;
  used : Z;
  total : Z
}.

(** A field of type [result] is a call the source guards with [try]; the
    other fields are calls it leaves unguarded ([psutil.virtual_memory()],
    [psutil.cpu_percent()], [datetime.now()]) or that do not fail
    ([time.time()]) and hold what the call returned: a pass in which one of
    those raises is not described by a value of this type. *)
Record readings : Type := Readings {
  r_socket_ip : result string;          (* [s.getsockname()[0]] *)
  r_systemctl : result string;          (* stripped stdout of [systemctl] *)
  r_pgrep : result string;              (* stripped stdout of [pgrep] *)
  r_now : Z;                            (* [datetime.now()] *)
  r_disk_usage : string -> result usage;
  r_virtual_memory : usage;
  r_cpu_percent : Q;                    (* [psutil.cpu_percent(interval=0.1)] *)
  r_sensors_temperatures : result (gmap string (list Q));
  r_thermal_zone0 : result Q;           (* [float(f.read())] of the zone file *)
  r_net_io_counters : result net_io_counters;
  r_time : Q;                           (* [time.time()] *)
  r_truetype : Z -> result font         (* [ImageFont.truetype] at a size *)
}.

Definition get_local_ip (r : readings) : string :=
  try_except (r_socket_ip r) "No network"%string.

Definition is_copyparty_running (r : readings) : bool :=
  try_except
    (let! out := r_systemctl r in
     if String.eqb out "active" then Ok true
     else
       let! out := r_pgrep r in
       Ok (0 <? String.length out)%nat)
    false.

Definition GiB : Q := inject_Z (1024 ^ 3).

(** [None] stands for the triple [(None, None, None)]. *)
Definition get_disk_usage (r : readings) (path : string) : option (Q * Q * Q) :=
  try_except
    (let! disk := r_disk_usage r path in
     Ok (Some (percent disk,
               inject_Z (used disk) / GiB, inject_Z (total disk) / GiB)%Q))
    None.

Definition get_memory_usage (r : readings) : Q * Q * Q :=
  let mem := r_virtual_memory r in
  (percent mem, inject_Z (used mem) / GiB, inject_Z (total mem) / GiB)%Q.

Definition get_cpu_temp (r : readings) : option Q :=
  try_except
    (let! temp := r_sensors_temperatures r in
     match temp !! "cpu_thermal"%string with
     | Some entries =>
         match entries with
         | current :: _ => Ok (Some current)
         | [] => Raise IndexError
         end
     | None =>
         let! raw := r_thermal_zone0 r in
         Ok (Some (raw / 1000)%Q)
     end)
    None.

Definition get_cpu_usage (r : readings) : Q := r_cpu_percent r.

(** ** Program state *)

Record world : Type := World {
  current_page : Z;
  cpu_history : Deque.deque Q;
  net_history : Deque.deque Q;
  last_net_io : option snapshot;
  shown : list drawing        (* one entry per [lcd.show()] of a rendered image *)
}.

Definition initial_world : world :=
  World 0
        (Deque.new (repeat 0%Q (Z.to_nat WIDTH)) (Z.to_nat WIDTH))
        (Deque.new (repeat 0%Q (Z.to_nat WIDTH)) (Z.to_nat WIDTH))
        None
        [].

(** ** Page content *)

Definition draw_page_0 (draw : drawing) (f : font) (r : readings) : drawing :=
  let ip := get_local_ip r in
  let copyparty_status := is_copyparty_running r in
  let now := r_now r in
  let draw := draw ++ [DText (2, 2) [Lit "IP: "; FmtStr ip] f 1] in
  let status :=
    if copyparty_status then [Lit "Port "; FmtInt COPYPARTY_PORT]
    else [Lit "Stopped"] in
  let draw := draw ++ [DText (2, 18) (Lit "Copyparty: " :: status) f 1] in
  let draw := draw ++ [DText (2, 34) [Strftime "%H:%M:%S" now] f 1] in
  draw ++ [DText (2, 50) [Strftime "%Y-%m-%d" now] f 1].

Definition draw_page_1 (draw : drawing) (f : font) (r : readings) : drawing :=
  let draw :=
    match get_disk_usage r "/" with
    | Some (sd_pct, sd_used, sd_total) =>
        draw ++ [DText (2, 2)
                   [Lit "SD: "; FmtFix 0 sd_pct; Lit "% ("; FmtFix 1 sd_used;
                    Lit "/"; FmtFix 1 sd_total; Lit "GB)"] f 1]
    | None => draw
    end in
  let draw :=
    match get_disk_usage r "/mnt/storage" with
    | Some (nvme_pct, nvme_used, nvme_total) =>
        draw ++ [DText (2, 18) [Lit "NVMe: "; FmtFix 0 nvme_pct; Lit "%"] f 1;
                 DText (2, 34)
                   [FmtFix 0 nvme_used; Lit "/"; FmtFix 0 nvme_total; Lit "GB"]
                   f 1]
    | None => draw ++ [DText (2, 18) [Lit "NVMe: N/A"] f 1]
    end in
  let '(mem_pct, mem_used, mem_total) := get_memory_usage r in
  draw ++ [DText (2, 50)
             [Lit "RAM: "; FmtFix 0 mem_pct; Lit "% ("; FmtFix 1 mem_used;
              Lit "/"; FmtFix 1 mem_total; Lit "GB)"] f 1].

(** [min((net_usage / 1000) * 100, 100)] *)
Definition net_scaled (net_usage : Q) : Q :=
  min_float ((net_usage / 1000) * 100) 100.

Definition draw_page_2 (draw : drawing) (f : font) (r : readings) (w : world)
    : result (world * drawing) :=
  let cpu_usage := get_cpu_usage r in
  let cpu_temp := get_cpu_temp r in
  let cpu_history := Deque.append (cpu_history w) cpu_usage in
  let '(last, net_usage) :=
    get_network_usage (r_net_io_counters r) (r_time r) (last_net_io w) in
  let net_history := Deque.append (net_history w) (net_scaled net_usage) in
  let w := World (current_page w) cpu_history net_history last (shown w) in
  let small_font := try_except (r_truetype r 8) f in
  let draw :=
    if truthy cpu_temp then
      draw ++ [DText (2, 0)
                 [Lit "CPU "; FmtFix 0 cpu_usage; Lit "% ";
                  FmtFix 0 (default 0%Q cpu_temp); Lit "C"] small_font 1]
    else
      draw ++ [DText (2, 0) [Lit "CPU "; FmtFix 0 cpu_usage; Lit "%"]
                 small_font 1] in
  let! draw := draw_graph draw cpu_history 12 20 100 in
  let draw :=
    draw ++ [DText (2, 34) [Lit "NET "; FmtFix 0 net_usage; Lit "KB/s"]
               small_font 1] in
  let! draw := draw_graph draw net_history 46 18 100 in
  Ok (w, draw).

(** ** [update_display] and the button handlers *)

(** The calls on [lcd] are taken to return; the image handed to [lcd.show()]
    is recorded as its drawing. *)
Definition update_display (r : readings) (w : world) : result world :=
  let f := try_except (r_truetype r FONT_SIZE) DefaultFont in
  let! (w, draw) :=
    if current_page w =? 0 then Ok (w, draw_page_0 [] f r)
    else if current_page w =? 1 then Ok (w, draw_page_1 [] f r)
    else if current_page w =? 2 then draw_page_2 [] f r w
    else Ok (w, []) in
  Ok (World (current_page w) (cpu_history w) (net_history w) (last_net_io w)
            (shown w ++ [draw])).

Definition set_page (w : world) (p : Z) : world :=
  World p (cpu_history w) (net_history w) (last_net_io w) (shown w).

Definition next_page (ch : Z) (event : string) (r : readings) (w : world)
    : result world :=
  if String.eqb event "press" then
    update_display r (set_page w ((current_page w + 1) mod total_pages))
  else Ok w.

Definition prev_page (ch : Z) (event : string) (r : readings) (w : world)
    : result world :=
  if String.eqb event "press" then
    update_display r (set_page w ((current_page w - 1) mod total_pages))
  else Ok w.

(** What happens to the program after [main] has set it up: a pass of the
    update loop, or a touch event on a channel ([touch.on(3, prev_page)],
    [touch.on(5, next_page)]). *)
Inductive input : Type :=
| Tick (r : readings)
| Touch (ch : Z) (event : string) (r : readings).

Definition step (i : input) (w : world) : result world :=
  match i with
  | Tick r => update_display r w
  | Touch ch event r =>
      if ch =? 3 then prev_page ch event r w
      else if ch =? 5 then next_page ch event r w
      else Ok w
  end.

Fixpoint run (inputs : list input) (w : world) : result world :=
  match inputs with
  | [] => Ok w
  | i :: rest => let! w := step i w in run rest w
  end.

(** Both rolling series hold exactly [WIDTH] items and are bounded by it. *)
Definition series_full (w : world) : Prop :=
  Deque.len (cpu_history w) = Z.to_nat WIDTH
  /\ Deque.maxlen (cpu_history w) = Z.to_nat WIDTH
  /\ Deque.len (net_history w) = Z.to_nat WIDTH
  /\ Deque.maxlen (net_history w) = Z.to_nat WIDTH.

(** ** A concrete render pass *)

(** Readings of a pass in which no temperature sensor is listed, the thermal
    zone file reads 0, the CPU load is 25 and the network counters read
    (100, 200) at time 12; the other sources fail. *)
Definition sample_readings : readings := {|
  r_socket_ip := Raise OSError;
  r_systemctl := Raise OSError;
  r_pgrep := Raise OSError;
  r_now := 0;
  r_disk_usage := fun _ => Raise OSError;
  r_virtual_memory := Usage 50 1 2;
  r_cpu_percent := 25;
  r_sensors_temperatures := Ok ∅;
  r_thermal_zone0 := Ok 0%Q;
  r_net_io_counters := Ok (NetIO 100 200);
  r_time := 12;
  r_truetype := fun size => Ok (TrueType size)
|}.

(** The program state on page 2 with the counters (1000, 2000) stored at
    time 10. *)
Definition sample_world : world :=
  World 2 (cpu_history initial_world) (net_history initial_world)
        (Some (Snapshot 1000 2000 10)) [].

(** ** Closed forms used to state what the renderer draws *)

(** The image after the calls of a drawing that did not raise. *)
Definition render (d : result drawing) (img : image) : option image :=
  match d with
  | Ok calls => paint calls img
  | Raise _ => None
  end.

(** The value [bar_height] ends with when the division succeeds. *)
Definition bar_of (value max_value : Q) (height : Z) : Z :=
  Z.min (py_int (round64 (round64 (value / max_value)
                          * round64 (inject_Z (height - 2)))))
        (height - 2).

(** The line of one column, if the column gets one. *)
Definition column_line (x : Z) (value : Q) (y_start height : Z) (max_value : Q)
    : drawing :=
  if Qltb 0 value && (0 <? bar_of value max_value height) then
    [DLine (x + 1, y_start + height - 2 - bar_of value max_value height)
           (x + 1, y_start + height - 2) 1]
  else [].

(** The lines of the columns of [data], the first of which has index [x]. *)
Fixpoint graph_lines (x : Z) (data : list Q) (y_start height : Z) (max_value : Q)
    : drawing :=
  match data with
  | [] => []
  | value :: rest =>
      column_line x value y_start height max_value
      ++ graph_lines (x + 1) rest y_start height max_value
  end.

(** Pixel (px, py) lies on the line of some column of [data] (column [i] of
    the series is drawn at pixel column [x0 + i + 1]): the rows from
    [y_bottom - bar] to [y_bottom], both included. *)
Definition bar_covers (x0 : Z) (data : list Q) (y_start height : Z)
    (max_value : Q) (px py : Z) : Prop :=
  exists (i : nat) (v : Q),
    data !! i = Some v
    /\ px = x0 + Z.of_nat i + 1
    /\ (0 < v)%Q
    /\ 0 < bar_of v max_value height
    /\ y_start + height - 2 - bar_of v max_value height <= py
       <= y_start + height - 2.

(** Pixel (px, py) lies in the run of [bar] pixels of some column of [data]
    that starts at the bottom interior row [y_start + height - 2] and goes
    upward. *)
Definition bar_run_covers (data : list Q) (y_start height : Z) (max_value : Q)
    (px py : Z) : Prop :=
  exists (i : nat) (v : Q),
    data !! i = Some v
    /\ px = Z.of_nat i + 1
    /\ (0 < v)%Q
    /\ 0 < bar_of v max_value height
    /\ y_start + height - 2 - bar_of v max_value height < py
       <= y_start + height - 2.

(** Pixel (px, py) lies in the column of a bar of [data], more than one row
    above the run of that bar. *)
Definition above_bar_run (data : list Q) (y_start height : Z) (max_value : Q)
    (px py : Z) : Prop :=
  exists (i : nat) (v : Q),
    data !! i = Some v
    /\ px = Z.of_nat i + 1
    /\ (0 < v)%Q
    /\ 0 < bar_of v max_value height
    /\ py < y_start + height - 2 - bar_of v max_value height.

(** No entry of [data] gives pixel column [px] a bar. *)
Definition column_without_bar (data : list Q) (height : Z) (max_value : Q)
    (px : Z) : Prop :=
  forall (i : nat) (v : Q),
    data !! i = Some v -> px = Z.of_nat i + 1 ->
    (v <= 0)%Q \/ bar_of v max_value height <= 0.

(** The rectangle of the region, and its one-pixel outline. *)
Definition in_region (y_start height px py : Z) : Prop :=
  0 <= px <= WIDTH - 1 /\ y_start <= py <= y_start + height - 1.

Definition on_border (y_start height px py : Z) : bool :=
  (px =? 0) || (px =? WIDTH - 1) || (py =? y_start)
  || (py =? y_start + height - 1).

(** ** The renderer as the specification words it *)

(** [clamp(round(v / max_value * (height - 2)), 0, height - 2)] *)
Definition spec_bar (v max_value : Q) (height : Z) : Z :=
  Z.max 0 (Z.min (round_half_even (v / max_value * inject_Z (height - 2))%Q)
                 (height - 2)).

(** A run of [spec_bar] pixels at column [i + 1], from the bottom interior
    row of the region upward. *)
Definition spec_bar_covers (data : list Q) (y_start height : Z) (max_value : Q)
    (px py : Z) : Prop :=
  exists (i : nat) (v : Q),
    data !! i = Some v
    /\ px = Z.of_nat i + 1
    /\ 0 < spec_bar v max_value height
    /\ y_start + height - 2 - spec_bar v max_value height < py
       <= y_start + height - 2.

(** ** Successive calls of the rate estimator *)

(** [get_network_usage] called once per element of [calls] (the counters read
    and the clock of that call): the rates returned, oldest first, and the
    snapshot left in [last_net_io]. *)
Fixpoint poll (calls : list (net_io_counters * Q)) (last : option snapshot)
    : list Q * option snapshot :=
  match calls with
  | [] => ([], last)
  | (c, t) :: rest =>
      let '(last', rate) := get_network_usage (Ok c) t last in
      let '(rates, final) := poll rest last' in
      (rate :: rates, final)
  end.

(** Each rate times the seconds since the call before it, summed. *)
Fixpoint transferred (t_prev : Q) (calls : list (net_io_counters * Q))
    (rates : list Q) : Q :=
  match calls, rates with
  | (_, t) :: calls', rate :: rates' =>
      (rate * (t - t_prev) + transferred t calls' rates')%Q
  | _, _ => 0%Q
  end.

(** The clock advances from call to call. *)
Fixpoint increasing (t_prev : Q) (calls : list (net_io_counters * Q)) : Prop :=
  match calls with
  | [] => True
  | (_, t) :: calls' => (t_prev < t)%Q /\ increasing t calls'
  end.

(** ** Counting the render passes *)

(** The inputs that run [update_display]: a pass of the loop, and a press on
    one of the two registered channels. *)
Definition renders (i : input) : bool :=
  match i with
  | Tick _ => true
  | Touch ch event _ => ((ch =? 3) || (ch =? 5)) && String.eqb event "press"
  end.

(** * Properties *)

(** ** Arithmetic helpers *)

Lemma Qltb_lt (a b : Q) : Qltb a b = true <-> (a < b)%Q.
Proof.
  unfold Qltb. rewrite negb_true_iff, <- not_true_iff_false, Qle_bool_iff.
  split; [apply Qnot_le_lt | apply Qlt_not_le].
Qed.

Lemma Qltb_ge (a b : Q) : Qltb a b = false <-> (b <= a)%Q.
Proof.
  unfold Qltb. rewrite negb_false_iff. apply Qle_bool_iff.
Qed.

Lemma truediv_nonzero (a b : Q) : ~ (b == 0)%Q -> truediv a b = Ok (a / b)%Q.
Proof.
  intros Hb. unfold truediv.
  destruct (Qeq_bool b 0) eqn:E; [| reflexivity].
  apply Qeq_bool_iff in E. contradiction.
Qed.

(** ** Binary64 rounding *)

Lemma round_half_even_bounds (q : Q) :
  Qfloor q <= round_half_even q <= Qfloor q + 1.
Proof.
  unfold round_half_even.
  destruct (Qltb _ _); [lia |]. destruct (Qltb _ _); [lia |].
  destruct (Z.even _); lia.
Qed.

Lemma round_half_even_monotone (x y : Q) :
  (x <= y)%Q -> round_half_even x <= round_half_even y.
Proof.
  intros Hxy. pose proof (Qfloor_resp_le x y Hxy) as Hf.
  destruct (Z_lt_le_dec (Qfloor x) (Qfloor y)) as [Hlt | Hge].
  - pose proof (round_half_even_bounds x). pose proof (round_half_even_bounds y).
    lia.
  - assert (E : Qfloor x = Qfloor y) by lia.
    unfold round_half_even. rewrite E.
    set (f := Qfloor y).
    destruct (Qltb (x - inject_Z f) (1 # 2)) eqn:Hx1;
      destruct (Qltb (y - inject_Z f) (1 # 2)) eqn:Hy1;
      destruct (Qltb (1 # 2) (x - inject_Z f)) eqn:Hx2;
      destruct (Qltb (1 # 2) (y - inject_Z f)) eqn:Hy2;
      try apply Qltb_lt in Hx1; try apply Qltb_lt in Hy1;
      try apply Qltb_lt in Hx2; try apply Qltb_lt in Hy2;
      try apply Qltb_ge in Hx1; try apply Qltb_ge in Hy1;
      try apply Qltb_ge in Hx2; try apply Qltb_ge in Hy2;
      try (exfalso; lra); destruct (Z.even f); lia.
Qed.

Lemma round_half_even_Z (n : Z) : round_half_even (inject_Z n) = n.
Proof.
  unfold round_half_even. rewrite Qfloor_Z.
  assert (E : Qltb (inject_Z n - inject_Z n) (1 # 2) = true).
  { apply Qltb_lt. lra. }
  rewrite E. reflexivity.
Qed.

Lemma round_half_even_eq (x y : Q) :
  (x == y)%Q -> round_half_even x = round_half_even y.
Proof.
  intros E. apply Z.le_antisymm; apply round_half_even_monotone; lra.
Qed.

Lemma ilog2_spec (x : Q) :
  (0 < x)%Q -> (2 ^ ilog2 x <= x)%Q /\ (x < 2 ^ (ilog2 x + 1))%Q.
Proof.
  intros Hx. unfold ilog2. destruct x as [n d]. cbn [Qnum Qden].
  assert (Hn : 0 < n) by (unfold Qlt in Hx; cbn in Hx; lia).
  pose proof (Z.log2_spec n Hn) as [Hn1 Hn2].
  pose proof (Z.log2_spec (Z.pos d) ltac:(lia)) as [Hd1 Hd2].
  pose proof (Z.log2_nonneg n) as Hln. pose proof (Z.log2_nonneg (Z.pos d)) as Hld.
  set (ln := Z.log2 n) in *. set (ld := Z.log2 (Z.pos d)) in *.
  assert (H2 : ~ (2 == 0)%Q) by discriminate.
  assert (Hq : (n # d == inject_Z n / inject_Z (Z.pos d))%Q) by apply Qmake_Qdiv.
  assert (Hdpos : (0 < inject_Z (Z.pos d))%Q) by reflexivity.
  assert (Pn1 : (2 ^ ln <= inject_Z n)%Q).
  { change 2%Q with (inject_Z 2). rewrite <- Zpower_Qpower by lia.
    rewrite <- Zle_Qle. exact Hn1. }
  assert (Pn2 : (inject_Z n < 2 ^ (ln + 1))%Q).
  { change 2%Q with (inject_Z 2). rewrite <- Zpower_Qpower by lia.
    rewrite <- Zlt_Qlt. replace (ln + 1) with (Z.succ ln) by lia. exact Hn2. }
  assert (Pd1 : (2 ^ ld <= inject_Z (Z.pos d))%Q).
  { change 2%Q with (inject_Z 2). rewrite <- Zpower_Qpower by lia.
    rewrite <- Zle_Qle. exact Hd1. }
  assert (Pd2 : (inject_Z (Z.pos d) < 2 ^ (ld + 1))%Q).
  { change 2%Q with (inject_Z 2). rewrite <- Zpower_Qpower by lia.
    rewrite <- Zlt_Qlt. replace (ld + 1) with (Z.succ ld) by lia. exact Hd2. }
  assert (Ppos : forall z, (0 < 2 ^ z)%Q) by (intros z; apply Qpower_0_lt; reflexivity).
  destruct (Qle_bool (2 ^ (ln - ld)) (n # d)) eqn:E.
  - apply Qle_bool_iff in E. split; [exact E |].
    rewrite Hq. apply Qlt_shift_div_r; [exact Hdpos |].
    replace (ln - ld + 1) with ((ln + 1) + - ld) by lia.
    rewrite Qpower_plus by exact H2. rewrite Qpower_opp.
    apply Qlt_le_trans with (2 ^ (ln + 1))%Q; [exact Pn2 |].
    assert (E1 : (2 ^ (ln + 1) == 2 ^ (ln + 1) * / 2 ^ ld * 2 ^ ld)%Q).
    { field. pose proof (Ppos ld). lra. }
    rewrite E1 at 1. apply Qmult_le_l.
    + apply Qmult_lt_0_compat; [apply Ppos | apply Qinv_lt_0_compat, Ppos].
    + exact Pd1.
  - assert (Hlt : (n # d < 2 ^ (ln - ld))%Q).
    { apply Qnot_le_lt. intros H. apply Qle_bool_iff in H. congruence. }
    replace (ln - ld - 1 + 1) with (ln - ld) by lia. split; [| exact Hlt].
    rewrite Hq. apply Qle_shift_div_l; [exact Hdpos |].
    replace (ln - ld - 1) with (ln + - (ld + 1)) by lia.
    rewrite Qpower_plus by exact H2. rewrite Qpower_opp.
    apply Qle_trans with (2 ^ ln)%Q; [| exact Pn1].
    assert (E1 : (2 ^ ln == 2 ^ ln * / 2 ^ (ld + 1) * 2 ^ (ld + 1))%Q).
    { field. pose proof (Ppos (ld + 1)). lra. }
    rewrite E1 at 2. apply Qmult_le_l.
    + apply Qmult_lt_0_compat; [apply Ppos | apply Qinv_lt_0_compat, Ppos].
    + lra.
Qed.

Lemma pow2_pos (z : Z) : (0 < 2 ^ z)%Q.
Proof. apply Qpower_0_lt. reflexivity. Qed.

Lemma ilog2_monotone (x y : Q) :
  (0 < x)%Q -> (x <= y)%Q -> ilog2 x <= ilog2 y.
Proof.
  intros Hx Hxy.
  destruct (ilog2_spec x Hx) as [Hx1 _].
  destruct (ilog2_spec y ltac:(lra)) as [_ Hy2].
  assert (H : (2 ^ ilog2 x < 2 ^ (ilog2 y + 1))%Q) by lra.
  apply Qpower_lt_compat_l_inv in H; [lia | reflexivity].
Qed.

Lemma ilog2_unique (x : Q) (k : Z) :
  (2 ^ k <= x)%Q -> (x < 2 ^ (k + 1))%Q -> ilog2 x = k.
Proof.
  intros H1 H2.
  assert (Hx : (0 < x)%Q) by (pose proof (pow2_pos k); lra).
  destruct (ilog2_spec x Hx) as [Hx1 Hx2].
  assert (Ha : (2 ^ k < 2 ^ (ilog2 x + 1))%Q) by lra.
  assert (Hb : (2 ^ ilog2 x < 2 ^ (k + 1))%Q) by lra.
  apply Qpower_lt_compat_l_inv in Ha; [| reflexivity].
  apply Qpower_lt_compat_l_inv in Hb; [| reflexivity]. lia.
Qed.

Lemma pow2_cancel (e : Z) : (2 ^ (- e) * 2 ^ e == 1)%Q.
Proof.
  rewrite <- Qpower_plus by discriminate.
  replace (- e + e) with 0 by lia. reflexivity.
Qed.

(** The significand of a positive value lies between 0 and 2^53, and is at
    least 2^52 when the value is normal. *)
Lemma scaled_bounds (x : Q) :
  (0 < x)%Q ->
  let e := Z.max (ilog2 x - 52) (-1074) in
  (x * 2 ^ (- e) <= 2 ^ 53)%Q
  /\ (ilog2 x - 52 = e -> (2 ^ 52 <= x * 2 ^ (- e))%Q).
Proof.
  intros Hx e. destruct (ilog2_spec x Hx) as [H1 H2].
  pose proof (pow2_pos (- e)) as Hpe.
  split.
  - apply Qle_trans with (2 ^ (ilog2 x + 1) * 2 ^ (- e))%Q.
    + apply Qmult_le_compat_r; lra.
    + rewrite <- Qpower_plus by discriminate.
      apply Qpower_le_compat_l; [lia | discriminate].
  - intros He.
    apply Qle_trans with (2 ^ ilog2 x * 2 ^ (- e))%Q.
    + rewrite <- Qpower_plus by discriminate.
      apply Qpower_le_compat_l; [lia | discriminate].
    + apply Qmult_le_compat_r; lra.
Qed.

Lemma round64_pos_monotone (x y : Q) :
  (0 < x)%Q -> (x <= y)%Q -> (round64_pos x <= round64_pos y)%Q.
Proof.
  intros Hx Hxy.
  assert (Hy : (0 < y)%Q) by lra.
  pose proof (ilog2_monotone x y Hx Hxy) as Hlog.
  unfold round64_pos.
  set (ex := Z.max (ilog2 x - 52) (-1074)).
  set (ey := Z.max (ilog2 y - 52) (-1074)).
  destruct (Z_lt_le_dec ex ey) as [Hlt | Hge].
  - destruct (scaled_bounds x Hx) as [Hsx _].
    destruct (scaled_bounds y Hy) as [_ Hsy].
    fold ex in Hsx. fold ey in Hsy.
    assert (Hnormal : ilog2 y - 52 = ey) by lia.
    specialize (Hsy Hnormal).
    assert (Hmx : round_half_even (x * 2 ^ (- ex)) <= 2 ^ 53).
    { rewrite <- (round_half_even_Z (2 ^ 53)).
      apply round_half_even_monotone.
      rewrite Zpower_Qpower by lia. exact Hsx. }
    assert (Hmy : 2 ^ 52 <= round_half_even (y * 2 ^ (- ey))).
    { rewrite <- (round_half_even_Z (2 ^ 52)) at 1.
      apply round_half_even_monotone.
      rewrite Zpower_Qpower by lia. exact Hsy. }
    apply Qle_trans with (inject_Z (2 ^ 53) * 2 ^ ex)%Q.
    + apply Qmult_le_compat_r; [| pose proof (pow2_pos ex); lra].
      rewrite <- Zle_Qle. exact Hmx.
    + apply Qle_trans with (inject_Z (2 ^ 52) * 2 ^ ey)%Q.
      * rewrite !Zpower_Qpower by lia. rewrite <- !Qpower_plus by discriminate.
        apply Qpower_le_compat_l; [lia | discriminate].
      * apply Qmult_le_compat_r; [| pose proof (pow2_pos ey); lra].
        rewrite <- Zle_Qle. exact Hmy.
  - assert (E : ex = ey) by lia. rewrite E.
    apply Qmult_le_compat_r; [| pose proof (pow2_pos ey); lra].
    rewrite <- Zle_Qle. apply round_half_even_monotone.
    apply Qmult_le_compat_r; [exact Hxy | pose proof (pow2_pos (- ey)); lra].
Qed.

Lemma round64_pos_positive (x : Q) : (0 < x)%Q -> (0 <= round64_pos x)%Q.
Proof.
  intros Hx. unfold round64_pos.
  apply Qmult_le_0_compat; [| pose proof (pow2_pos (Z.max (ilog2 x - 52) (-1074))); lra].
  change 0%Q with (inject_Z 0). rewrite <- Zle_Qle.
  rewrite <- (round_half_even_Z 0) at 1. apply round_half_even_monotone.
  apply Qmult_le_0_compat; [lra |].
  pose proof (pow2_pos (- Z.max (ilog2 x - 52) (-1074))). lra.
Qed.

Lemma round64_pos_integer (n : Z) :
  0 < n < 2 ^ 53 -> (round64_pos (inject_Z n) == inject_Z n)%Q.
Proof.
  intros Hn.
  pose proof (Z.log2_spec n ltac:(lia)) as [Hl1 Hl2].
  pose proof (Z.log2_nonneg n) as Hl0.
  assert (Hl53 : Z.log2 n < 53).
  { apply Z.log2_lt_pow2; lia. }
  assert (Hlog : ilog2 (inject_Z n) = Z.log2 n).
  { apply ilog2_unique.
    - change 2%Q with (inject_Z 2). rewrite <- Zpower_Qpower by lia.
      rewrite <- Zle_Qle. exact Hl1.
    - change 2%Q with (inject_Z 2). rewrite <- Zpower_Qpower by lia.
      rewrite <- Zlt_Qlt. replace (Z.log2 n + 1) with (Z.succ (Z.log2 n)) by lia.
      exact Hl2. }
  unfold round64_pos. rewrite Hlog.
  set (e := Z.max (Z.log2 n - 52) (-1074)).
  assert (He : - e >= 0) by lia.
  assert (Hs : (inject_Z n * 2 ^ (- e) == inject_Z (n * 2 ^ (- e)))%Q).
  { rewrite inject_Z_mult. rewrite Zpower_Qpower by lia. reflexivity. }
  rewrite (round_half_even_eq _ _ Hs), round_half_even_Z.
  rewrite inject_Z_mult, Zpower_Qpower by lia.
  change (inject_Z 2) with 2%Q.
  rewrite <- Qmult_assoc, pow2_cancel. ring.
Qed.

Lemma round64_nonneg (x : Q) : (0 <= x)%Q -> (0 <= round64 x)%Q.
Proof.
  intros Hx. unfold round64.
  destruct (Qltb 0 x) eqn:E.
  - apply Qltb_lt in E. apply round64_pos_positive, E.
  - destruct (Qltb x 0) eqn:E2; [apply Qltb_lt in E2; lra | apply Qle_refl].
Qed.

Lemma round64_monotone (x y : Q) :
  (0 <= x)%Q -> (x <= y)%Q -> (round64 x <= round64 y)%Q.
Proof.
  intros Hx Hxy. unfold round64 at 1.
  destruct (Qltb 0 x) eqn:E.
  - apply Qltb_lt in E. unfold round64.
    assert (Ey : Qltb 0 y = true) by (apply Qltb_lt; lra).
    rewrite Ey. apply round64_pos_monotone; assumption.
  - destruct (Qltb x 0) eqn:E2; [apply Qltb_lt in E2; lra |].
    apply round64_nonneg. lra.
Qed.

Lemma round64_integer (n : Z) :
  0 <= n < 2 ^ 53 -> (round64 (inject_Z n) == inject_Z n)%Q.
Proof.
  intros Hn. unfold round64.
  destruct (Qltb 0 (inject_Z n)) eqn:E.
  - apply Qltb_lt in E. change 0%Q with (inject_Z 0) in E.
    rewrite <- Zlt_Qlt in E. apply round64_pos_integer. lia.
  - apply Qltb_ge in E. change 0%Q with (inject_Z 0) in E.
    rewrite <- Zle_Qle in E. assert (n = 0) as -> by lia. reflexivity.
Qed.

(** ** Rate estimator *)

Section RateEstimator.

Variable c : net_io_counters.
Variable t : Q.

Lemma first_call : get_network_usage (Ok c) t None = (Some (stored c t), 0%Q).
Proof. reflexivity. Qed.

Lemma later_call (last : snapshot) :
  (snap_time last < t)%Q ->
  get_network_usage_body (Ok c) t (Some last)
  = Ok (Some (stored c t),
        (inject_Z ((bytes_sent c - snap_bytes_sent last)
                   + (bytes_recv c - snap_bytes_recv last)) / 1024
         / (t - snap_time last))%Q).
Proof.
  intros Ht. unfold get_network_usage_body. cbn [bind].
  assert (Hd : (0 < t - snap_time last)%Q) by lra.
  apply Qltb_lt in Hd as Hb. rewrite Hb.
  rewrite truediv_nonzero by lra. reflexivity.
Qed.

Lemma stalled_call (last : snapshot) :
  (t <= snap_time last)%Q ->
  get_network_usage_body (Ok c) t (Some last) = Ok (Some (stored c t), 0%Q).
Proof.
  intros Ht. unfold get_network_usage_body. cbn [bind].
  assert (Hd : (t - snap_time last <= 0)%Q) by lra.
  apply Qltb_ge in Hd. rewrite Hd. reflexivity.
Qed.

(** The [try] block never raises once the counters were read. *)
Lemma body_never_raises (last : option snapshot) :
  exists v, get_network_usage_body (Ok c) t last = Ok v.
Proof.
  destruct last as [last |]; [| eexists; reflexivity].
  destruct (Qlt_le_dec (snap_time last) t) as [Hlt | Hle].
  - eexists. apply later_call, Hlt.
  - eexists. apply stalled_call, Hle.
Qed.

End RateEstimator.

(** The rate of a call with a snapshot and time advanced, in the form
    (current total - prior total) / 1024 / elapsed. *)
Lemma rate_formula (c : net_io_counters) (t : Q) (last : snapshot) :
  (snap_time last < t)%Q ->
  fst (get_network_usage (Ok c) t (Some last)) = Some (stored c t)
  /\ (snd (get_network_usage (Ok c) t (Some last))
      == inject_Z ((bytes_sent c + bytes_recv c)
                   - (snap_bytes_sent last + snap_bytes_recv last))
         / 1024 / (t - snap_time last))%Q.
Proof.
  intros Hpos. unfold get_network_usage. rewrite (later_call c t last Hpos).
  cbn [try_except fst snd]. split; [reflexivity |].
  replace (bytes_sent c - snap_bytes_sent last
           + (bytes_recv c - snap_bytes_recv last))
    with (bytes_sent c + bytes_recv c
          - (snap_bytes_sent last + snap_bytes_recv last)) by lia.
  reflexivity.
Qed.

(** C3 as the specification states it: the second call of the worked example returns
    50.  It returns 100 / 1024 / 2 instead. *)
Lemma C3_example_not_50 :
  ~ (snd (get_network_usage (Ok (NetIO 150 250)) 12
            (fst (get_network_usage (Ok (NetIO 100 200)) 10 None))) == 50)%Q.
Proof. vm_compute. discriminate. Qed.

(** C3 (amended): the first call (no snapshot) stores the reading and returns
    0; a later call with positive elapsed time stores the new reading and
    returns the byte difference divided by 1024 and by the elapsed seconds
    (KB/s).  In the worked example, counters (100, 200) at T and (150, 250)
    at T + 2 give 0 and then (50 + 50) / 1024 / 2 = 25/512. *)
Theorem C3_rate_in_kb_per_sec (c : net_io_counters) (t : Q) (last : snapshot)
    (Hpos : (snap_time last < t)%Q) :
  get_network_usage (Ok c) t None = (Some (stored c t), 0%Q)
  /\ fst (get_network_usage (Ok c) t (Some last)) = Some (stored c t)
  /\ (snd (get_network_usage (Ok c) t (Some last))
      == inject_Z ((bytes_sent c + bytes_recv c)
                   - (snap_bytes_sent last + snap_bytes_recv last))
         / 1024 / (t - snap_time last))%Q
  /\ (forall T : Q,
        let first := get_network_usage (Ok (NetIO 100 200)) T None in
        let second :=
          get_network_usage (Ok (NetIO 150 250)) (T + 2) (fst first) in
        snd first = 0%Q
        /\ fst first = Some (Snapshot 100 200 T)
        /\ (snd second == 25 # 512)%Q
        /\ fst second = Some (Snapshot 150 250 (T + 2))).
Proof.
  split; [reflexivity |]. split; [| split].
  - unfold get_network_usage. rewrite (later_call c t last Hpos). reflexivity.
  - unfold get_network_usage. rewrite (later_call c t last Hpos).
    cbn [try_except snd].
    replace (bytes_sent c - snap_bytes_sent last
             + (bytes_recv c - snap_bytes_recv last))
      with (bytes_sent c + bytes_recv c
            - (snap_bytes_sent last + snap_bytes_recv last)) by lia.
    reflexivity.
  - intros T first second. subst first second.
    rewrite first_call. cbn [fst snd].
    unfold get_network_usage.
    rewrite (later_call (NetIO 150 250) (T + 2) (stored (NetIO 100 200) T))
      by (cbn; lra).
    cbn. repeat split.
    assert (E : (T + 2 - T == 2)%Q) by ring.
    rewrite E. reflexivity.
Qed.

Lemma C3_rate_in_kb_per_sec_witness :
  (snd (get_network_usage (Ok (NetIO 150 250)) 12 (Some (Snapshot 100 200 10)))
   == inject_Z ((150 + 250) - (100 + 200)) / 1024 / (12 - 10))%Q.
Proof.
  apply (C3_rate_in_kb_per_sec (NetIO 150 250) 12 (Snapshot 100 200 10)).
  vm_compute. reflexivity.
Defined.

(** C1 as the specification states it: after a counter decrease the returned rate is
    not negative.  From the snapshot (1000, 2000) at time 10, the reading
    (100, 200) at time 12 returns -2700 / 1024 / 2. *)
Lemma C1_negative_rate :
  let last := Snapshot 1000 2000 10 in
  let c := NetIO 100 200 in
  bytes_sent c < snap_bytes_sent last
  /\ bytes_recv c < snap_bytes_recv last
  /\ ~ (0 <= snd (get_network_usage (Ok c) 12 (Some last)))%Q
  /\ (snd (get_network_usage (Ok c) 12 (Some last)) == -675 # 512)%Q.
Proof.
  cbv zeta. repeat split; try (vm_compute; reflexivity).
  intros H. vm_compute in H. apply H. reflexivity.
Qed.

(** C1 (amended): when both counters of a call are strictly smaller than the
    stored snapshot, the call replaces the snapshot by the new reading, and
    the following call (with time advanced) computes its rate from that new
    reading only.  The rate returned by the call that sees the decrease is
    the signed difference / 1024 / elapsed, which is negative, when time has
    advanced, and 0 otherwise. *)
Theorem C1_decrease_rebaselines (c : net_io_counters) (t : Q) (last : snapshot)
    (Hsent : bytes_sent c < snap_bytes_sent last)
    (Hrecv : bytes_recv c < snap_bytes_recv last) :
  let now := get_network_usage (Ok c) t (Some last) in
  fst now = Some (stored c t)
  /\ ((snap_time last < t)%Q ->
      (snd now == inject_Z ((bytes_sent c + bytes_recv c)
                            - (snap_bytes_sent last + snap_bytes_recv last))
                  / 1024 / (t - snap_time last))%Q
      /\ (snd now < 0)%Q)
  /\ ((t <= snap_time last)%Q -> snd now = 0%Q)
  /\ (forall (c' : net_io_counters) (t' : Q),
        (t < t')%Q ->
        (snd (get_network_usage (Ok c') t' (fst now))
         == inject_Z ((bytes_sent c' + bytes_recv c')
                      - (bytes_sent c + bytes_recv c))
            / 1024 / (t' - t))%Q).
Proof.
  intros now.
  assert (Hfst : fst now = Some (stored c t)).
  { subst now. unfold get_network_usage.
    destruct (Qlt_le_dec (snap_time last) t) as [Hlt | Hle].
    - rewrite (later_call c t last Hlt). reflexivity.
    - rewrite (stalled_call c t last Hle). reflexivity. }
  split; [exact Hfst |]. split; [| split].
  - intros Hlt.
    destruct (rate_formula c t last Hlt) as [_ Hrate].
    fold now in Hrate. split; [exact Hrate |].
    rewrite Hrate.
    assert (Hneg : (inject_Z (bytes_sent c + bytes_recv c
                              - (snap_bytes_sent last + snap_bytes_recv last))
                    < 0)%Q).
    { change 0%Q with (inject_Z 0). rewrite <- Zlt_Qlt. lia. }
    assert (Hd : (0 < t - snap_time last)%Q) by lra.
    apply Qlt_shift_div_r; [exact Hd |].
    apply Qlt_shift_div_r; [reflexivity |]. lra.
  - intros Hle. subst now. unfold get_network_usage.
    rewrite (stalled_call c t last Hle). reflexivity.
  - intros c' t' Ht'. rewrite Hfst.
    destruct (rate_formula c' t' (stored c t) Ht') as [_ Hrate].
    exact Hrate.
Qed.

Lemma C1_decrease_rebaselines_witness :
  fst (get_network_usage (Ok (NetIO 100 200)) 12 (Some (Snapshot 1000 2000 10)))
  = Some (Snapshot 100 200 12).
Proof.
  apply (C1_decrease_rebaselines (NetIO 100 200) 12 (Snapshot 1000 2000 10));
    vm_compute; reflexivity.
Defined.

(** C2 as the specification states it: with a snapshot and elapsed time <= 0 the
    stored snapshot is left unchanged.  With the snapshot (100, 200) taken at
    time 10, a call reading (150, 250) at time 10 (elapsed 0) and one at
    time 9 (elapsed -1) both overwrite it. *)
Lemma C2_snapshot_overwritten :
  let last := Snapshot 100 200 10 in
  fst (get_network_usage (Ok (NetIO 150 250)) 10 (Some last))
    = Some (Snapshot 150 250 10)
  /\ fst (get_network_usage (Ok (NetIO 150 250)) 9 (Some last))
    = Some (Snapshot 150 250 9)
  /\ fst (get_network_usage (Ok (NetIO 150 250)) 10 (Some last)) <> Some last
  /\ fst (get_network_usage (Ok (NetIO 150 250)) 9 (Some last)) <> Some last.
Proof.
  cbv zeta. repeat split; try (vm_compute; reflexivity);
    vm_compute; discriminate.
Qed.

(** C2 (amended): with a snapshot and elapsed time <= 0 the call raises
    nothing (the division is not reached), returns 0, and replaces the stored
    snapshot by the current reading; whatever the snapshot and the clock, the
    [try] block of a call that read the counters never raises, so no division
    by zero occurs. *)
Theorem C2_clock_anomaly_rebaselines (c : net_io_counters) (t : Q)
    (last : snapshot) (Hanomaly : (t - snap_time last <= 0)%Q) :
  get_network_usage_body (Ok c) t (Some last) = Ok (Some (stored c t), 0%Q)
  /\ get_network_usage (Ok c) t (Some last) = (Some (stored c t), 0%Q)
  /\ (forall (c' : net_io_counters) (t' : Q) (prior : option snapshot),
        get_network_usage_body (Ok c') t' prior <> Raise ZeroDivisionError).
Proof.
  assert (Hle : (t <= snap_time last)%Q) by lra.
  split; [apply stalled_call, Hle |]. split.
  - unfold get_network_usage. rewrite (stalled_call c t last Hle). reflexivity.
  - intros c' t' prior.
    destruct (body_never_raises c' t' prior) as [v Hv]. rewrite Hv. discriminate.
Qed.

Lemma C2_clock_anomaly_rebaselines_witness :
  get_network_usage (Ok (NetIO 150 250)) 10 (Some (Snapshot 100 200 10))
  = (Some (Snapshot 150 250 10), 0%Q).
Proof.
  apply (C2_clock_anomaly_rebaselines (NetIO 150 250) 10 (Snapshot 100 200 10)).
  vm_compute. discriminate.
Defined.

(** ** Rolling series *)

Section RollingSeries.

Context {A : Type}.
Implicit Types (d : Deque.deque A) (x : A) (xs : list A).

Lemma append_maxlen d x : Deque.maxlen (Deque.append d x) = Deque.maxlen d.
Proof. reflexivity. Qed.

Lemma append_items d x :
  (Deque.len d <= Deque.maxlen d)%nat ->
  Deque.items (Deque.append d x)
  = drop (length (Deque.items d ++ [x]) - Deque.maxlen d) (Deque.items d ++ [x]).
Proof.
  unfold Deque.len, Deque.append. intros Hlen. cbn [Deque.items].
  rewrite length_app. cbn [length].
  destruct (Nat.ltb_spec (Deque.maxlen d) (length (Deque.items d) + 1)) as [Hfull | Hroom].
  - replace (length (Deque.items d) + 1 - Deque.maxlen d)%nat with 1%nat by lia.
    destruct (Deque.items d ++ [x]); reflexivity.
  - replace (length (Deque.items d) + 1 - Deque.maxlen d)%nat with 0%nat by lia.
    reflexivity.
Qed.

Lemma append_len d x :
  (Deque.len d <= Deque.maxlen d)%nat ->
  Deque.len (Deque.append d x) = Nat.min (S (Deque.len d)) (Deque.maxlen d).
Proof.
  intros Hlen. unfold Deque.len at 1. rewrite append_items by exact Hlen.
  rewrite length_drop, length_app. cbn [length]. unfold Deque.len in *. lia.
Qed.

(** After any pushes the deque holds the last [maxlen] of everything that
    was ever in it. *)
Lemma pushes_items xs : forall d,
  (Deque.len d <= Deque.maxlen d)%nat ->
  Deque.items (fold_left Deque.append xs d)
  = drop (length (Deque.items d ++ xs) - Deque.maxlen d) (Deque.items d ++ xs).
Proof.
  induction xs as [| x xs IH]; intros d Hlen.
  - cbn [fold_left]. rewrite app_nil_r.
    unfold Deque.len in Hlen.
    replace (length (Deque.items d) - Deque.maxlen d)%nat with 0%nat by lia.
    reflexivity.
  - cbn [fold_left]. rewrite IH by (rewrite append_len, append_maxlen; lia).
    rewrite append_maxlen, append_items by exact Hlen.
    set (l := Deque.items d) in *. set (m := Deque.maxlen d) in *.
    unfold Deque.len in Hlen. fold l in Hlen.
    rewrite <- drop_app_le by (rewrite length_app; cbn [length]; lia).
    rewrite drop_drop, <- app_assoc. cbn [app].
    f_equal. rewrite length_app, length_drop, !length_app. cbn [length]. lia.
Qed.

Lemma pushes_maxlen xs : forall d,
  Deque.maxlen (fold_left Deque.append xs d) = Deque.maxlen d.
Proof.
  induction xs as [| x xs IH]; intros d; [reflexivity |].
  cbn [fold_left]. rewrite IH. reflexivity.
Qed.

Lemma new_items xs (n : nat) :
  Deque.items (Deque.new xs n) = drop (length xs - n) xs.
Proof.
  unfold Deque.new. rewrite pushes_items by (cbn; lia). reflexivity.
Qed.

Lemma new_full_len xs :
  Deque.len (Deque.new xs (length xs)) = length xs.
Proof.
  unfold Deque.len. rewrite new_items, length_drop. lia.
Qed.

End RollingSeries.

(** ** Graph renderer *)

Section GraphRenderer.

Variables (y_start height : Z) (max_value : Q).

Lemma bar_height_ok (v : Q) :
  ~ (max_value == 0)%Q ->
  bar_height v max_value height = Ok (bar_of v max_value height).
Proof.
  intros Hm. unfold bar_height. rewrite truediv_nonzero by exact Hm.
  reflexivity.
Qed.

(** The loop adds exactly the lines of [graph_lines], in column order. *)
Lemma draw_graph_loop_lines (data : list Q) :
  ~ (max_value == 0)%Q ->
  forall (draw : drawing) (x : Z),
    draw_graph_loop draw x data y_start height max_value
    = Ok (draw ++ graph_lines x data y_start height max_value).
Proof.
  intros Hm. induction data as [| v rest IH]; intros draw x.
  - cbn. rewrite app_nil_r. reflexivity.
  - cbn [draw_graph_loop graph_lines]. unfold column_line.
    destruct (Qltb 0 v) eqn:Hv; cbn [andb].
    + rewrite bar_height_ok by exact Hm. cbn [bind].
      destruct (0 <? bar_of v max_value height) eqn:Hb.
      * rewrite IH, <- app_assoc. reflexivity.
      * rewrite IH. reflexivity.
    + rewrite IH. reflexivity.
Qed.

Lemma draw_rectangle_ok (draw : drawing) :
  1 <= height ->
  draw_rectangle draw (0, y_start) (WIDTH - 1, y_start + height - 1) 1 0
  = Ok (draw
        ++ [DRectangle (0, y_start) (WIDTH - 1, y_start + height - 1) 1 0]).
Proof.
  intros Hh. unfold draw_rectangle. cbn [fst snd].
  replace (y_start + height - 1 <? y_start) with false
    by (symmetry; apply Z.ltb_ge; lia).
  reflexivity.
Qed.

Lemma draw_graph_lines (draw : drawing) (data : Deque.deque Q) :
  ~ (max_value == 0)%Q ->
  1 <= height ->
  Deque.items data <> [] ->
  draw_graph draw data y_start height max_value
  = Ok (draw
        ++ DRectangle (0, y_start) (WIDTH - 1, y_start + height - 1) 1 0
        :: graph_lines 0 (Deque.items data) y_start height max_value).
Proof.
  intros Hm Hh Hne. unfold draw_graph, Deque.len.
  destruct (Deque.items data) as [| v rest] eqn:E; [contradiction |].
  cbn [length Nat.eqb]. rewrite draw_rectangle_ok by exact Hh. cbn [bind].
  rewrite draw_graph_loop_lines by exact Hm.
  rewrite <- app_assoc. reflexivity.
Qed.

(** A series without a positive value gets no line, whatever the ceiling. *)
Lemma draw_graph_loop_flat (data : list Q) :
  Forall (fun v => (v <= 0)%Q) data ->
  forall (draw : drawing) (x : Z),
    draw_graph_loop draw x data y_start height max_value = Ok draw.
Proof.
  induction 1 as [| v rest Hv _ IH]; intros draw x; [reflexivity |].
  cbn [draw_graph_loop]. apply Qltb_ge in Hv. rewrite Hv. apply IH.
Qed.

Lemma bar_covers_cons (x0 : Z) (v : Q) (rest : list Q) (px py : Z) :
  bar_covers x0 (v :: rest) y_start height max_value px py
  <-> (px = x0 + 1 /\ (0 < v)%Q /\ 0 < bar_of v max_value height
       /\ y_start + height - 2 - bar_of v max_value height <= py
          <= y_start + height - 2)
      \/ bar_covers (x0 + 1) rest y_start height max_value px py.
Proof.
  unfold bar_covers. split.
  - intros (i & w & Hi & Hpx & Hw & Hb & Hpy). destruct i as [| k].
    + left. cbn in Hi. injection Hi as ->. repeat split; try lia; assumption.
    + right. exists k, w. cbn in Hi. repeat split; try lia; assumption.
  - intros [(Hpx & Hv & Hb & Hpy) | (k & w & Hk & Hpx & Hw & Hb & Hpy)].
    + exists 0%nat, v. repeat split; try lia; assumption.
    + exists (S k), w. repeat split; try lia; assumption.
Qed.

Lemma bar_covers_right (x0 : Z) (data : list Q) (px py : Z) :
  bar_covers x0 data y_start height max_value px py -> x0 < px.
Proof. intros (i & w & _ & Hpx & _). lia. Qed.

Lemma paint_app (d1 d2 : drawing) : forall img : image,
  paint (d1 ++ d2) img
  = match paint d1 img with Some img1 => paint d2 img1 | None => None end.
Proof.
  induction d1 as [| c d1 IH]; intros img; [reflexivity |].
  cbn [app paint]. destruct (paint_cmd c img); [apply IH | reflexivity].
Qed.

Lemma paint_column_line (x : Z) (v : Q) (img : image) :
  exists img1,
    paint (column_line x v y_start height max_value) img = Some img1
    /\ forall px py,
         img1 px py
         = if in_image px py && (px =? x + 1) && Qltb 0 v
              && (0 <? bar_of v max_value height)
              && (y_start + height - 2 - bar_of v max_value height <=? py)
              && (py <=? y_start + height - 2)
           then 1 else img px py.
Proof.
  unfold column_line.
  destruct (Qltb 0 v) eqn:Hv; cbn [andb].
  2: { exists img. split; [reflexivity |]. intros px py.
       rewrite !andb_false_r. reflexivity. }
  destruct (0 <? bar_of v max_value height) eqn:Hb.
  2: { exists img. split; [reflexivity |]. intros px py.
       rewrite !andb_false_r. reflexivity. }
  cbn [paint paint_cmd]. rewrite Z.eqb_refl. eexists. split; [reflexivity |].
  intros px py. cbn beta. unfold between.
  apply Z.ltb_lt in Hb.
  rewrite Z.min_l, Z.max_r by lia. rewrite !andb_true_r, !andb_assoc.
  reflexivity.
Qed.

(** The pixels after the lines of a series were painted over [img]. *)
Lemma paint_graph_lines (data : list Q) : forall (x0 : Z) (img : image),
  exists img',
    paint (graph_lines x0 data y_start height max_value) img = Some img'
    /\ forall px py,
         (in_image px py = true ->
          bar_covers x0 data y_start height max_value px py ->
          img' px py = 1)
         /\ (~ (in_image px py = true
                /\ bar_covers x0 data y_start height max_value px py) ->
             img' px py = img px py).
Proof.
  induction data as [| v rest IH]; intros x0 img.
  - exists img. split; [reflexivity |]. intros px py. split; [| reflexivity].
    intros _ (i & w & Hi & _). discriminate.
  - cbn [graph_lines]. rewrite paint_app.
    destruct (paint_column_line x0 v img) as (img1 & -> & Himg1).
    destruct (IH (x0 + 1) img1) as (img' & Hpaint & Himg').
    exists img'. split; [exact Hpaint |]. intros px py.
    destruct (Himg' px py) as [Hlit Hkeep]. specialize (Himg1 px py).
    split.
    + intros Hin Hcov. apply bar_covers_cons in Hcov.
      destruct Hcov as [(Hpx & Hv & Hb & Hpy) | Hrest]; [| auto].
      rewrite Hkeep.
      * rewrite Himg1, Hin.
        apply Z.eqb_eq in Hpx. apply Qltb_lt in Hv. apply Z.ltb_lt in Hb.
        rewrite Hpx, Hv, Hb. cbn [andb].
        destruct Hpy as [Hlo Hhi].
        apply Z.leb_le in Hlo, Hhi. rewrite Hlo, Hhi. reflexivity.
      * intros [_ Hrest]. apply bar_covers_right in Hrest. lia.
    + intros Hnot. rewrite Hkeep.
      * rewrite Himg1.
        destruct (in_image px py && (px =? x0 + 1) && Qltb 0 v
                  && (0 <? bar_of v max_value height)
                  && (y_start + height - 2 - bar_of v max_value height <=? py)
                  && (py <=? y_start + height - 2)) eqn:E; [| reflexivity].
        exfalso. apply Hnot.
        do 5 (apply andb_true_iff in E; destruct E as [E ?]).
        split; [assumption |]. apply bar_covers_cons. left.
        repeat split; try (apply Z.eqb_eq; assumption);
          try (apply Qltb_lt; assumption); try (apply Z.ltb_lt; assumption);
          apply Z.leb_le; assumption.
      * intros [Hin Hrest]. apply Hnot. split; [exact Hin |].
        apply bar_covers_cons. right. exact Hrest.
Qed.

End GraphRenderer.

Lemma py_int_lower (q : Q) (n : Z) : 0 <= n -> (inject_Z n <= q)%Q -> n <= py_int q.
Proof.
  intros Hn Hq. unfold py_int. destruct q as [num den].
  unfold Qle in Hq. cbn in Hq |- *.
  assert (Hnum : 0 <= num) by nia.
  rewrite Z.quot_div_nonneg by lia.
  apply Z.div_le_lower_bound; lia.
Qed.

Lemma bar_of_full (v max_value : Q) (height : Z) :
  2 <= height -> height <= 2 ^ 53 ->
  (0 < max_value)%Q -> (max_value <= v)%Q ->
  bar_of v max_value height = height - 2.
Proof.
  intros Hh Hbig Hm Hv. unfold bar_of. apply Z.min_r.
  assert (Hspan0 : (0 <= inject_Z (height - 2))%Q).
  { change 0%Q with (inject_Z 0). rewrite <- Zle_Qle. lia. }
  assert (Hspan : (round64 (inject_Z (height - 2)) == inject_Z (height - 2))%Q)
    by (apply round64_integer; lia).
  assert (Hratio : (1 <= round64 (v / max_value))%Q).
  { assert (Hone : (round64 (inject_Z 1) == inject_Z 1)%Q)
      by (apply round64_integer; lia).
    change (inject_Z 1) with 1%Q in Hone. rewrite <- Hone.
    apply round64_monotone; [discriminate |].
    apply Qle_shift_div_l; [exact Hm | lra]. }
  assert (Hprod : (inject_Z (height - 2)
                   <= round64 (v / max_value) * round64 (inject_Z (height - 2)))%Q).
  { rewrite Hspan.
    apply Qle_trans with (1 * inject_Z (height - 2))%Q.
    - rewrite Qmult_1_l. apply Qle_refl.
    - apply Qmult_le_compat_r; assumption. }
  apply py_int_lower; [lia |].
  rewrite <- Hspan at 1. apply round64_monotone; assumption.
Qed.

(** The image after [draw_graph] drew a non-empty series over [img]. *)
Lemma draw_graph_pixels (data : Deque.deque Q) (y_start height : Z)
    (max_value : Q) (img : image) :
  Deque.items data <> [] -> 2 <= height -> ~ (max_value == 0)%Q ->
  exists img',
    render (draw_graph [] data y_start height max_value) img = Some img'
    /\ forall px py,
         (in_image px py = true ->
          bar_covers 0 (Deque.items data) y_start height max_value px py ->
          img' px py = 1)
         /\ (in_image px py = true ->
             ~ bar_covers 0 (Deque.items data) y_start height max_value px py ->
             in_region y_start height px py ->
             img' px py = if on_border y_start height px py then 1 else 0)
         /\ (in_image px py = false
             \/ (~ bar_covers 0 (Deque.items data) y_start height max_value px py
                 /\ ~ in_region y_start height px py) ->
             img' px py = img px py).
Proof.
  intros Hdata Hh Hm.
  rewrite (draw_graph_lines y_start height max_value [] data Hm
             ltac:(lia) Hdata).
  cbn [app render paint paint_cmd].
  replace ((0 <=? WIDTH - 1) && (y_start <=? y_start + height - 1)) with true
    by (symmetry; apply andb_true_iff; split; apply Z.leb_le;
        [unfold WIDTH |]; lia).
  match goal with |- context [paint _ ?i] => set (boxed := i) end.
  destruct (paint_graph_lines y_start height max_value (Deque.items data) 0 boxed)
    as (img' & Hpaint & Himg').
  exists img'. split; [exact Hpaint |]. intros px py.
  destruct (Himg' px py) as [Hlit Hkeep].
  assert (Hbox : forall b : bool,
             in_image px py = b ->
             boxed px py
             = if b && (0 <=? px) && (px <=? WIDTH - 1)
                  && (y_start <=? py) && (py <=? y_start + height - 1)
               then if on_border y_start height px py then 1 else 0
               else img px py).
  { intros b <-. subst boxed. cbn beta.
    replace (y_start =? y_start + height - 1) with false
      by (symmetry; apply Z.eqb_neq; lia).
    rewrite andb_false_r. cbn [andb]. reflexivity. }
  split; [exact Hlit | split].
  - intros Hin Hno (Hx & Hy). rewrite Hkeep by tauto.
    rewrite (Hbox true Hin). cbn [andb].
    replace ((0 <=? px) && (px <=? WIDTH - 1) && (y_start <=? py)
             && (py <=? y_start + height - 1)) with true; [reflexivity |].
    symmetry. rewrite !andb_true_iff, !Z.leb_le. lia.
  - intros [Hout | (Hno & Hreg)].
    + rewrite Hkeep by (rewrite Hout; intros [? _]; discriminate).
      rewrite (Hbox false Hout). reflexivity.
    + rewrite Hkeep by tauto.
      rewrite (Hbox (in_image px py) eq_refl).
      destruct (in_image px py && (0 <=? px) && (px <=? WIDTH - 1)
                && (y_start <=? py) && (py <=? y_start + height - 1)) eqn:E;
        [| reflexivity].
      exfalso. apply Hreg. unfold in_region.
      rewrite !andb_true_iff, !Z.leb_le in E. lia.
Qed.

(** C6 as the specification states it: the bar is the rounded scaled value and the
    run has [bar] pixels.  For the value 99 (ceiling 100, height 20) the code
    computes 17 where rounding gives 18; for the value 50 in column 0 (region
    at row 12, height 20) the bar is 9 on both sides, and the code lights the
    interior pixel (1, 21), which is outside the run of 9 pixels that ends at
    row 30. *)
Lemma C6_truncated_bar_and_longer_run :
  let data := Deque.new (50%Q :: repeat 0%Q 127) 128 in
  bar_height 99 100 20 = Ok 17
  /\ spec_bar 99 100 20 = 18
  /\ bar_height 50 100 20 = Ok 9
  /\ spec_bar 50 100 20 = 9
  /\ (exists img',
        render (draw_graph [] data 12 20 100) blank = Some img'
        /\ img' 1 21 = 1)
  /\ on_border 12 20 1 21 = false
  /\ ~ spec_bar_covers (Deque.items data) 12 20 100 1 21.
Proof.
  cbv zeta. repeat split; try (vm_compute; reflexivity).
  - eexists. split; [vm_compute; reflexivity | reflexivity].
  - intros (i & v & Hi & Hpx & Hb & Hlo & Hhi).
    assert (i = 0%nat) as -> by lia.
    vm_compute in Hi. injection Hi as <-.
    vm_compute in Hlo. discriminate.
Qed.

(** Whether a pixel lies on the line of a column can be decided: the pixel
    column fixes the entry of the series. *)
Lemma bar_covers_dec (data : list Q) (y_start height : Z) (max_value : Q)
    (px py : Z) :
  bar_covers 0 data y_start height max_value px py
  \/ ~ bar_covers 0 data y_start height max_value px py.
Proof.
  destruct (Z_lt_le_dec px 1) as [Hleft | Hcol].
  { right. intros (i & v & _ & Hpx & _). lia. }
  destruct (data !! Z.to_nat (px - 1)) as [v |] eqn:Hv.
  2: { right. intros (i & w & Hi & Hpx & _).
       replace (Z.to_nat (px - 1)) with i in Hv by lia. congruence. }
  destruct (Qlt_le_dec 0 v) as [Hpos | Hneg].
  2: { right. intros (i & w & Hi & Hpx & Hw & _).
       replace (Z.to_nat (px - 1)) with i in Hv by lia.
       rewrite Hi in Hv. injection Hv as ->. lra. }
  destruct (Z_lt_le_dec 0 (bar_of v max_value height)) as [Hbar | Hnobar].
  2: { right. intros (i & w & Hi & Hpx & _ & Hb & _).
       replace (Z.to_nat (px - 1)) with i in Hv by lia.
       rewrite Hi in Hv. injection Hv as ->. lia. }
  destruct (Z_le_gt_dec (y_start + height - 2 - bar_of v max_value height) py)
    as [Hlo | Hlo];
    [destruct (Z_le_gt_dec py (y_start + height - 2)) as [Hhi | Hhi] |].
  - left. exists (Z.to_nat (px - 1)), v. repeat split; try assumption; lia.
  - right. intros (i & w & Hi & Hpx & _ & _ & Hrange).
    replace (Z.to_nat (px - 1)) with i in Hv by lia.
    rewrite Hi in Hv. injection Hv as ->. lia.
  - right. intros (i & w & Hi & Hpx & _ & _ & Hrange).
    replace (Z.to_nat (px - 1)) with i in Hv by lia.
    rewrite Hi in Hv. injection Hv as ->. lia.
Qed.

(** A line never leaves the rectangle of the region. *)
Lemma bar_covers_in_region (data : list Q) (y_start height : Z) (max_value : Q)
    (px py : Z) :
  in_image px py = true ->
  bar_covers 0 data y_start height max_value px py ->
  in_region y_start height px py.
Proof.
  intros Hin (i & v & _ & Hpx & _ & Hb & Hrange).
  assert (Hcap : bar_of v max_value height <= height - 2)
    by (unfold bar_of; apply Z.le_min_r).
  unfold in_image in Hin. rewrite !andb_true_iff in Hin.
  destruct Hin as [[[_ Hx] _] _]. apply Z.ltb_lt in Hx.
  unfold in_region. unfold WIDTH in *. lia.
Qed.

(** C6 (amended): for a non-empty series, a region of height >= 2 and a
    non-zero ceiling, the renderer draws the one-pixel border rectangle of the
    region and clears its inside, and for each column x whose value v is
    positive it computes, in binary64, bar = min(int(v / max_value *
    (height - 2)), height - 2), truncating toward zero instead of rounding,
    and, if bar > 0, lights the run of bar pixels of column x + 1 that starts
    at the bottom interior row y_start + height - 2 and goes upward; the
    interior pixels of that column more than one row above the run stay
    clear.  A column with v <= 0 or bar <= 0 draws nothing beyond the border,
    and no pixel outside the region or outside the 128 x 64 image changes.
    (Only the pixel directly above a run is left open here.) *)
Theorem C6_graph_border_and_bars (data : Deque.deque Q) (y_start height : Z)
    (max_value : Q) (img : image)
    (Hdata : Deque.items data <> []) (Hheight : 2 <= height)
    (Hceiling : ~ (max_value == 0)%Q) :
  (forall v : Q,
      bar_height v max_value height
      = Ok (Z.min (py_int (round64 (round64 (v / max_value)
                                    * round64 (inject_Z (height - 2)))))
                  (height - 2)))
  /\ exists img',
       render (draw_graph [] data y_start height max_value) img = Some img'
       /\ forall px py,
            (in_image px py = false \/ ~ in_region y_start height px py ->
             img' px py = img px py)
            /\ (in_image px py = true -> in_region y_start height px py ->
                on_border y_start height px py = true -> img' px py = 1)
            /\ (in_image px py = true ->
                bar_run_covers (Deque.items data) y_start height max_value
                               px py ->
                img' px py = 1)
            /\ (in_image px py = true -> in_region y_start height px py ->
                on_border y_start height px py = false ->
                above_bar_run (Deque.items data) y_start height max_value
                              px py ->
                img' px py = 0)
            /\ (in_image px py = true -> in_region y_start height px py ->
                on_border y_start height px py = false ->
                column_without_bar (Deque.items data) height max_value px ->
                img' px py = 0).
Proof.
  split; [intros v; apply bar_height_ok, Hceiling |].
  destruct (draw_graph_pixels data y_start height max_value img
              Hdata Hheight Hceiling) as (img' & Hrender & Hpix).
  exists img'. split; [exact Hrender |]. intros px py.
  destruct (Hpix px py) as (Hbar & Hbox & Hkeep).
  destruct (bar_covers_dec (Deque.items data) y_start height max_value px py)
    as [Hcov | Hno].
  - split; [| split; [| split; [| split]]].
    + intros [Hout | Hreg]; [apply Hkeep; left; exact Hout |].
      destruct (in_image px py) eqn:Hin; [| apply Hkeep; left; reflexivity].
      exfalso. apply Hreg. eapply bar_covers_in_region; eassumption.
    + intros Hin _ _. apply Hbar; assumption.
    + intros Hin _. apply Hbar; assumption.
    + intros Hin _ _ (i & v & Hi & Hpx & _ & _ & Habove). exfalso.
      destruct Hcov as (j & w & Hj & Hpx' & _ & _ & Hrange).
      assert (j = i) as -> by lia. rewrite Hi in Hj. injection Hj as <-. lia.
    + intros Hin _ _ Hnone. exfalso.
      destruct Hcov as (i & v & Hi & Hpx & Hv & Hb & _).
      destruct (Hnone i v Hi Hpx); [lra | lia].
  - split; [| split; [| split; [| split]]].
    + intros [Hout | Hreg]; apply Hkeep; [left; exact Hout | right; tauto].
    + intros Hin Hreg Hedge. rewrite (Hbox Hin Hno Hreg), Hedge. reflexivity.
    + intros Hin (i & v & Hi & Hpx & Hv & Hb & Hrange). exfalso. apply Hno.
      exists i, v. repeat split; try assumption; lia.
    + intros Hin Hreg Hedge _. rewrite (Hbox Hin Hno Hreg), Hedge. reflexivity.
    + intros Hin Hreg Hedge _. rewrite (Hbox Hin Hno Hreg), Hedge. reflexivity.
Qed.

Lemma C6_graph_border_and_bars_witness :
  bar_height 99 100 20 = Ok 17
  /\ exists img',
       render (draw_graph [] (Deque.new (50%Q :: repeat 0%Q 127) 128) 12 20 100)
              blank
       = Some img'
       /\ img' 1 30 = 1 /\ img' 1 22 = 1 /\ img' 1 15 = 0
       /\ img' 2 30 = 0 /\ img' 0 30 = 1.
Proof.
  assert (Hdata : Deque.items (Deque.new (50%Q :: repeat 0%Q 127) 128) <> [])
    by (vm_compute; discriminate).
  assert (Hheight : 2 <= 20) by lia.
  assert (Hceiling : ~ (100 == 0)%Q) by discriminate.
  pose proof (C6_graph_border_and_bars
                (Deque.new (50%Q :: repeat 0%Q 127) 128) 12 20 100 blank
                Hdata Hheight Hceiling) as H.
  destruct H as (Hbar & img' & Hrender & Hpix).
  split; [rewrite Hbar; vm_compute; reflexivity |].
  exists img'. split; [exact Hrender |].
  assert (Hbar50 : bar_of 50 100 20 = 9) by (vm_compute; reflexivity).
  assert (Hrun : forall py, 21 < py <= 30 ->
            bar_run_covers (Deque.items (Deque.new (50%Q :: repeat 0%Q 127) 128))
                           12 20 100 1 py).
  { intros py Hpy. exists 0%nat, 50%Q. rewrite Hbar50.
    repeat split; try reflexivity; lia. }
  repeat split.
  - destruct (Hpix 1 30) as (_ & _ & Hlit & _).
    apply Hlit; [reflexivity | apply Hrun; lia].
  - destruct (Hpix 1 22) as (_ & _ & Hlit & _).
    apply Hlit; [reflexivity | apply Hrun; lia].
  - destruct (Hpix 1 15) as (_ & _ & _ & Habove & _).
    apply Habove; [reflexivity | | reflexivity |].
    + unfold in_region, WIDTH. lia.
    + exists 0%nat, 50%Q. rewrite Hbar50.
      repeat split; try reflexivity; lia.
  - destruct (Hpix 2 30) as (_ & _ & _ & _ & Hclear).
    apply Hclear; [reflexivity | | reflexivity |].
    + unfold in_region, WIDTH. lia.
    + intros i v Hi Hpx. assert (i = 1%nat) as -> by lia.
      vm_compute in Hi. injection Hi as <-. left. apply Qle_refl.
  - destruct (Hpix 0 30) as (_ & Hedge & _).
    apply Hedge; [reflexivity | | reflexivity].
    unfold in_region, WIDTH. lia.
Defined.

Lemma graph_lines_line (y_start height : Z) (max_value : Q) (data : list Q) :
  forall (x0 : Z) (i : nat) (v : Q),
    data !! i = Some v ->
    (0 < v)%Q -> 0 < bar_of v max_value height ->
    In (DLine (x0 + Z.of_nat i + 1,
               y_start + height - 2 - bar_of v max_value height)
              (x0 + Z.of_nat i + 1, y_start + height - 2) 1)
       (graph_lines x0 data y_start height max_value).
Proof.
  induction data as [| w rest IH]; intros x0 i v Hi Hv Hb; [discriminate |].
  cbn [graph_lines]. apply in_or_app. destruct i as [| k].
  - left. cbn in Hi. injection Hi as ->. unfold column_line.
    apply Qltb_lt in Hv. apply Z.ltb_lt in Hb. rewrite Hv, Hb. cbn [andb].
    replace (x0 + Z.of_nat 0 + 1) with (x0 + 1) by lia. left. reflexivity.
  - right. cbn in Hi.
    replace (x0 + Z.of_nat (S k) + 1) with (x0 + 1 + Z.of_nat k + 1) by lia.
    apply IH; assumption.
Qed.

Lemma bar_covers_agree (n : nat) (data1 data2 : list Q) (y_start height : Z)
    (max_value : Q) (px py : Z) :
  take n data1 = take n data2 ->
  px <= Z.of_nat n ->
  bar_covers 0 data1 y_start height max_value px py ->
  bar_covers 0 data2 y_start height max_value px py.
Proof.
  intros Hsame Hpx (i & v & Hi & Hcol & Hrest).
  exists i, v. split; [| split; assumption].
  assert (Hlt : (i < n)%nat) by lia.
  rewrite <- (lookup_take_lt data2 n i Hlt), <- Hsame.
  rewrite (lookup_take_lt data1 n i Hlt). exact Hi.
Qed.

Lemma graph_lines_short (y_start height : Z) (max_value : Q) (data : list Q) :
  height <= 2 ->
  forall x : Z, graph_lines x data y_start height max_value = [].
Proof.
  intros Hh. induction data as [| v rest IH]; intros x; [reflexivity |].
  cbn [graph_lines]. rewrite IH. unfold column_line.
  replace (0 <? bar_of v max_value height) with false;
    [rewrite andb_false_r; reflexivity |].
  symmetry. apply Z.ltb_ge. unfold bar_of. lia.
Qed.

(** Two non-empty series that agree on their first 126 values give the same
    picture: the lines of the values 126 and 127 fall on the right border
    and outside the image. *)
Lemma graph_pictures_agree (data1 data2 : Deque.deque Q)
    (y_start height : Z) (max_value : Q) (img : image) :
  take 126 (Deque.items data1) = take 126 (Deque.items data2) ->
  Deque.items data1 <> [] -> Deque.items data2 <> [] ->
  2 <= height -> ~ (max_value == 0)%Q ->
  exists img1 img2,
    render (draw_graph [] data1 y_start height max_value) img = Some img1
    /\ render (draw_graph [] data2 y_start height max_value) img = Some img2
    /\ forall px py, img1 px py = img2 px py.
Proof.
  intros Hsame Hdata1 Hdata2 Hheight Hceiling.
  destruct (draw_graph_pixels data1 y_start height max_value img
              Hdata1 Hheight Hceiling) as (img1 & Hr1 & Hp1).
  destruct (draw_graph_pixels data2 y_start height max_value img
              Hdata2 Hheight Hceiling) as (img2 & Hr2 & Hp2).
  exists img1, img2. split; [exact Hr1 |]. split; [exact Hr2 |].
  intros px py.
  destruct (Hp1 px py) as (Hbar1 & Hbox1 & Hkeep1).
  destruct (Hp2 px py) as (Hbar2 & Hbox2 & Hkeep2).
  destruct (in_image px py) eqn:Hin.
  2: { rewrite Hkeep1, Hkeep2 by (left; reflexivity). reflexivity. }
  assert (Hedge : forall d d' : list Q,
             take 126 d = take 126 d' ->
             bar_covers 0 d y_start height max_value px py ->
             ~ bar_covers 0 d' y_start height max_value px py ->
             in_region y_start height px py
             /\ on_border y_start height px py = true).
  { intros d d' Htake Hcov Hno.
    split; [eapply bar_covers_in_region; eassumption |].
    assert (Hcol : 126 < px).
    { destruct (Z_lt_le_dec 126 px) as [H | H]; [exact H |].
      exfalso. apply Hno.
      apply (bar_covers_agree 126 d d'); [exact Htake | lia | exact Hcov]. }
    unfold in_image in Hin. rewrite !andb_true_iff in Hin.
    destruct Hin as [[[_ Hx] _] _]. apply Z.ltb_lt in Hx.
    unfold on_border, WIDTH in *.
    replace (px =? 128 - 1) with true by (symmetry; apply Z.eqb_eq; lia).
    rewrite orb_true_r. reflexivity. }
  destruct (bar_covers_dec (Deque.items data1) y_start height max_value px py)
    as [Hc1 | Hn1];
    destruct (bar_covers_dec (Deque.items data2) y_start height max_value px py)
      as [Hc2 | Hn2].
  - rewrite Hbar1, Hbar2 by (reflexivity || assumption). reflexivity.
  - destruct (Hedge _ _ Hsame Hc1 Hn2) as [Hreg Hb].
    rewrite Hbar1 by (reflexivity || assumption).
    rewrite (Hbox2 eq_refl Hn2 Hreg), Hb. reflexivity.
  - destruct (Hedge _ _ (eq_sym Hsame) Hc2 Hn1) as [Hreg Hb].
    rewrite Hbar2 by (reflexivity || assumption).
    rewrite (Hbox1 eq_refl Hn1 Hreg), Hb. reflexivity.
  - assert (Hreg : in_region y_start height px py
                   \/ ~ in_region y_start height px py)
      by (unfold in_region; lia).
    destruct Hreg as [Hreg | Hout].
    + rewrite (Hbox1 eq_refl Hn1 Hreg), (Hbox2 eq_refl Hn2 Hreg). reflexivity.
    + rewrite Hkeep1, Hkeep2 by (right; split; assumption). reflexivity.
Qed.

(** C7 as the specification states it: a series that contains a value equal to
    [max_value] draws a bar at that value's column.  With the value 100
    (ceiling 100, height 20) as the newest of 128 samples, at index 127, the
    bar height is 18, yet the picture is, pixel for pixel, that of the series
    of all zeros: no bar is drawn. *)
Lemma C7_full_value_without_bar :
  Deque.items (Deque.new (repeat 0%Q 127 ++ [100%Q]) 128) !! 127%nat
  = Some 100%Q
  /\ bar_height 100 100 20 = Ok 18
  /\ exists img1 img0,
       render (draw_graph [] (Deque.new (repeat 0%Q 127 ++ [100%Q]) 128)
                          12 20 100) blank = Some img1
       /\ render (draw_graph [] (Deque.new (repeat 0%Q 128) 128) 12 20 100)
                 blank = Some img0
       /\ forall px py, img1 px py = img0 px py.
Proof.
  split; [vm_compute; reflexivity |]. split; [vm_compute; reflexivity |].
  apply graph_pictures_agree.
  - vm_compute. reflexivity.
  - vm_compute. discriminate.
  - vm_compute. discriminate.
  - lia.
  - discriminate.
Qed.

(** C7 (amended): for a non-empty series, a region height from 2 to 2^53 and
    a positive ceiling, a series of all zeros adds the border rectangle and
    nothing else; a value equal to [max_value] gets the bar height
    [height - 2], and so does every value above [max_value]; for such a
    value at index i the renderer asks for the line of that height at column
    i + 1 (height > 2), and at an index i <= 125 that line lights all
    [height - 2] interior rows of column i + 1 that lie in the image.  The
    values at the indices 126 and 127 show no bar: whatever they are, the
    picture is the same. *)
Theorem C7_flat_series_and_full_bars (draw : drawing) (data : Deque.deque Q)
    (y_start height : Z) (max_value : Q)
    (Hdata : Deque.items data <> []) (Hheight : 2 <= height)
    (Hbound : height <= 2 ^ 53) (Hceiling : (0 < max_value)%Q) :
  (Forall (fun v => (v == 0)%Q) (Deque.items data) ->
   draw_graph draw data y_start height max_value
   = Ok (draw
         ++ [DRectangle (0, y_start) (WIDTH - 1, y_start + height - 1) 1 0]))
  /\ (forall v : Q,
        (v == max_value)%Q -> bar_height v max_value height = Ok (height - 2))
  /\ (forall v : Q,
        (max_value < v)%Q -> bar_height v max_value height = Ok (height - 2))
  /\ (forall (i : nat) (v : Q),
        Deque.items data !! i = Some v -> (max_value <= v)%Q -> 2 < height ->
        exists calls,
          draw_graph draw data y_start height max_value = Ok calls
          /\ In (DLine (Z.of_nat i + 1, y_start + height - 2 - (height - 2))
                       (Z.of_nat i + 1, y_start + height - 2) 1)
                calls)
  /\ (forall img : image,
        exists img',
          render (draw_graph [] data y_start height max_value) img = Some img'
          /\ (forall (i : nat) (v : Q) (py : Z),
                Deque.items data !! i = Some v -> (max_value <= v)%Q ->
                (i <= 125)%nat ->
                y_start < py <= y_start + height - 2 -> 0 <= py < HEIGHT ->
                img' (Z.of_nat i + 1) py = 1)
          /\ (forall data2 : Deque.deque Q,
                Deque.items data2 <> [] ->
                take 126 (Deque.items data2) = take 126 (Deque.items data) ->
                exists img2,
                  render (draw_graph [] data2 y_start height max_value) img
                  = Some img2
                  /\ forall px py, img2 px py = img' px py)).
Proof.
  assert (Hm : ~ (max_value == 0)%Q) by lra.
  assert (H1 : 1 <= height) by lia.
  split; [| split; [| split; [| split]]].
  - intros Hzero. unfold draw_graph, Deque.len.
    destruct (Deque.items data) as [| v rest] eqn:E; [contradiction |].
    cbn [length Nat.eqb]. rewrite draw_rectangle_ok by exact H1. cbn [bind].
    apply draw_graph_loop_flat.
    eapply Forall_impl; [exact Hzero |]. cbn. intros q Hq. lra.
  - intros v Hv. rewrite bar_height_ok by exact Hm.
    f_equal. apply bar_of_full; [assumption | assumption | assumption | lra].
  - intros v Hv. rewrite bar_height_ok by exact Hm.
    f_equal. apply bar_of_full; [assumption | assumption | assumption | lra].
  - intros i v Hi Hv Hh.
    rewrite (draw_graph_lines y_start height max_value draw data Hm H1 Hdata).
    eexists. split; [reflexivity |].
    apply in_or_app. right. right.
    pose proof (bar_of_full v max_value height Hheight Hbound Hceiling Hv)
      as Hfull.
    rewrite <- Hfull.
    apply (graph_lines_line y_start height max_value (Deque.items data) 0 i v);
      [exact Hi | lra | lia].
  - intros img.
    destruct (draw_graph_pixels data y_start height max_value img
                Hdata Hheight Hm) as (img' & Hrender & Hpix).
    exists img'. split; [exact Hrender |]. split.
    + intros i v py Hi Hv Hidx Hpy Hrow.
      destruct (Hpix (Z.of_nat i + 1) py) as (Hbar & _). apply Hbar.
      * unfold in_image, WIDTH.
        rewrite !andb_true_iff, !Z.leb_le, !Z.ltb_lt. lia.
      * pose proof (bar_of_full v max_value height Hheight Hbound Hceiling Hv)
          as Hfull.
        exists i, v. rewrite Hfull. repeat split; try assumption; try lia. lra.
    + intros data2 Hdata2 Hsame.
      destruct (graph_pictures_agree data2 data y_start height max_value img
                  Hsame Hdata2 Hdata Hheight Hm)
        as (img2 & img1 & Hr2 & Hr1 & Hagree).
      exists img2. split; [exact Hr2 |].
      assert (img1 = img') as <- by congruence. exact Hagree.
Qed.

Lemma C7_flat_series_and_full_bars_witness :
  draw_graph [] (Deque.new (repeat 0%Q 128) 128) 12 20 100
  = Ok [DRectangle (0, 12) (127, 31) 1 0]
  /\ bar_height 100 100 20 = Ok 18
  /\ bar_height 250 100 20 = Ok 18.
Proof.
  assert (Hdata : Deque.items (Deque.new (repeat 0%Q 128) 128) <> [])
    by (vm_compute; discriminate).
  assert (Hheight : 2 <= 20) by lia.
  assert (Hbound : 20 <= 2 ^ 53) by (vm_compute; discriminate).
  assert (Hceiling : (0 < 100)%Q) by reflexivity.
  pose proof (C7_flat_series_and_full_bars
                [] (Deque.new (repeat 0%Q 128) 128) 12 20 100
                Hdata Hheight Hbound Hceiling) as H.
  destruct H as (Hflat & Heq & Hgt & _).
  split; [| split].
  - apply Hflat. vm_compute. repeat constructor.
  - apply Heq. reflexivity.
  - apply Hgt. reflexivity.
Defined.

(** ** Page 2 and the render pass *)

Lemma draw_graph_extends (draw : drawing) (data : Deque.deque Q)
    (y_start height : Z) (max_value : Q) :
  ~ (max_value == 0)%Q -> 1 <= height ->
  exists extra,
    draw_graph draw data y_start height max_value = Ok (draw ++ extra).
Proof.
  intros Hm Hh. unfold draw_graph.
  destruct (Deque.len data =? 0)%nat.
  - exists []. rewrite app_nil_r. reflexivity.
  - rewrite draw_rectangle_ok by exact Hh. cbn [bind].
    rewrite draw_graph_loop_lines by exact Hm. rewrite <- app_assoc.
    eexists. reflexivity.
Qed.

(** A page-2 pass never raises; it appends the CPU load and the scaled
    network rate to the two series, stores what the rate estimator stored,
    and starts its drawing with the CPU label. *)
Lemma draw_page_2_ok (f : font) (r : readings) (w : world) :
  let usage := get_network_usage (r_net_io_counters r) (r_time r)
                                 (last_net_io w) in
  exists (w' : world) (rest : drawing),
    draw_page_2 [] f r w
    = Ok (w',
          DText (2, 0)
            (if truthy (get_cpu_temp r) then
               [Lit "CPU "; FmtFix 0 (get_cpu_usage r); Lit "% ";
                FmtFix 0 (default 0%Q (get_cpu_temp r)); Lit "C"]
             else [Lit "CPU "; FmtFix 0 (get_cpu_usage r); Lit "%"])
            (try_except (r_truetype r 8) f) 1 :: rest)
    /\ current_page w' = current_page w
    /\ cpu_history w' = Deque.append (cpu_history w) (get_cpu_usage r)
    /\ net_history w' = Deque.append (net_history w) (net_scaled (snd usage))
    /\ last_net_io w' = fst usage
    /\ shown w' = shown w.
Proof.
  intros usage. subst usage. unfold draw_page_2.
  destruct (get_network_usage (r_net_io_counters r) (r_time r) (last_net_io w))
    as [last rate].
  assert (H100 : ~ (100 == 0)%Q) by discriminate.
  destruct (truthy (get_cpu_temp r)); cbn [app].
  all: match goal with
       | |- context [draw_graph ?d ?h 12 20 100] =>
           destruct (draw_graph_extends d h 12 20 100 H100 ltac:(lia))
             as [bars1 ->]
       end; cbn [bind app].
  all: match goal with
       | |- context [draw_graph ?d ?h 46 18 100] =>
           destruct (draw_graph_extends d h 46 18 100 H100 ltac:(lia))
             as [bars2 ->]
       end; cbn [bind app].
  all: eexists _, _; split; [reflexivity | repeat split].
Qed.


Lemma net_scaled_cases (rate : Q) :
  ((rate / 1000 * 100 <= 100)%Q /\ net_scaled rate = (rate / 1000 * 100)%Q)
  \/ ((100 < rate / 1000 * 100)%Q /\ net_scaled rate = 100%Q).
Proof.
  unfold net_scaled, min_float.
  destruct (Qltb 100 (rate / 1000 * 100)) eqn:E.
  - right. apply Qltb_lt in E. split; [exact E | reflexivity].
  - left. apply Qltb_ge in E. split; [exact E | reflexivity].
Qed.

Lemma scaled_tenth (rate : Q) : (rate / 1000 * 100 == rate * (1 # 10))%Q.
Proof. field. Qed.

(** C8 as the specification states it: the pushed value lies in [0, 100] for every
    rate.  On page 2 with the counters (1000, 2000) stored at time 10, a pass
    that reads (100, 200) at time 12 gets the rate -675/512 KB/s and appends
    -135/1024 to the network series. *)
Lemma C8_negative_value_pushed :
  exists (w' : world) (d : drawing),
    draw_page_2 [] DefaultFont sample_readings sample_world = Ok (w', d)
    /\ (List.last (Deque.items (net_history w')) 0 == -135 # 1024)%Q
    /\ ~ (0 <= List.last (Deque.items (net_history w')) 0)%Q.
Proof.
  eexists _, _. split; [vm_compute; reflexivity |]. split.
  - vm_compute. reflexivity.
  - intros H. vm_compute in H. apply H. reflexivity.
Qed.

(** C8 (amended): every page-2 pass appends to the network series the value
    min(rate / 1000 * 100, 100), where rate is what the rate estimator
    returned.  That value is at most 100 for every rate, it is rate / 1000 *
    100 up to the ceiling of 1000 KB/s and 100 above it, and it is at least 0
    whenever the rate is; there is no lower clamp, so a negative rate is
    appended scaled and still negative. *)
Theorem C8_net_value_capped_above (f : font) (r : readings) (w : world) :
  let rate :=
    snd (get_network_usage (r_net_io_counters r) (r_time r) (last_net_io w)) in
  (exists (w' : world) (d : drawing),
      draw_page_2 [] f r w = Ok (w', d)
      /\ net_history w' = Deque.append (net_history w) (net_scaled rate))
  /\ (net_scaled rate <= 100)%Q
  /\ ((rate <= 1000)%Q -> (net_scaled rate == rate / 1000 * 100)%Q)
  /\ ((1000 < rate)%Q -> net_scaled rate = 100%Q)
  /\ ((0 <= rate)%Q -> (0 <= net_scaled rate)%Q)
  /\ ((rate < 0)%Q -> (net_scaled rate < 0)%Q).
Proof.
  intros rate.
  split.
  { destruct (draw_page_2_ok f r w) as (w' & rest & Hrun & _ & _ & Hnet & _).
    eexists _, _. split; [exact Hrun | exact Hnet]. }
  pose proof (scaled_tenth rate) as Hs.
  destruct (net_scaled_cases rate) as [[Hle ->] | [Hgt ->]];
    repeat split; intros; try lra; try reflexivity.
Qed.

Lemma C8_net_value_capped_above_witness :
  (net_scaled
     (snd (get_network_usage (r_net_io_counters sample_readings)
             (r_time sample_readings) (last_net_io sample_world))) < 0)%Q.
Proof.
  apply (C8_net_value_capped_above DefaultFont sample_readings sample_world).
  vm_compute. reflexivity.
Defined.

(** An available temperature other than 0 is part of the CPU label. *)
Lemma cpu_label_has_nonzero_temperature (f : font) (r : readings) (w : world)
    (t : Q) :
  get_cpu_temp r = Some t -> ~ (t == 0)%Q ->
  exists (w' : world) (rest : drawing),
    draw_page_2 [] f r w
    = Ok (w', DText (2, 0)
                [Lit "CPU "; FmtFix 0 (get_cpu_usage r); Lit "% ";
                 FmtFix 0 t; Lit "C"]
                (try_except (r_truetype r 8) f) 1 :: rest).
Proof.
  intros Ht Hnz.
  destruct (draw_page_2_ok f r w) as (w' & rest & Hrun & _).
  exists w', rest. rewrite Hrun, Ht. cbn [truthy default].
  destruct (Qeq_bool t 0) eqn:E; [| reflexivity].
  apply Qeq_bool_iff in E. contradiction.
Qed.

(** C9, the code at the reading 0: the thermal zone file reads 0, so
    [get_cpu_temp] returns the available temperature 0.0 (not the unavailable
    [None]), which is false as a condition, and page 2 draws the label
    without a temperature. *)
Theorem C9_zero_temperature_omitted :
  get_cpu_temp sample_readings = Some (0 / 1000)%Q
  /\ truthy (get_cpu_temp sample_readings) = false
  /\ (exists (w' : world) (rest : drawing),
        draw_page_2 [] DefaultFont sample_readings sample_world
        = Ok (w', DText (2, 0) [Lit "CPU "; FmtFix 0 25; Lit "%"]
                        (TrueType 8) 1 :: rest)).
Proof.
  split; [reflexivity |]. split; [reflexivity |].
  destruct (draw_page_2_ok DefaultFont sample_readings sample_world)
    as (w' & rest & Hrun & _).
  exists w', rest. exact Hrun.
Qed.

(** ** Page model *)

Lemma update_display_ok (r : readings) (w : world) :
  exists w',
    update_display r w = Ok w'
    /\ current_page w' = current_page w
    /\ length (shown w') = S (length (shown w)).
Proof.
  unfold update_display.
  destruct (current_page w =? 0); [| destruct (current_page w =? 1);
                                     [| destruct (current_page w =? 2)]].
  1, 2, 4: cbn [bind]; eexists; split; [reflexivity |];
    cbn [current_page shown]; rewrite length_app; cbn [length];
    split; [reflexivity | lia].
  destruct (draw_page_2_ok (try_except (r_truetype r FONT_SIZE) DefaultFont) r w)
    as (w' & rest & -> & Hpage & _ & _ & _ & Hshown).
  cbn [bind]. eexists. split; [reflexivity |].
  cbn [current_page shown]. rewrite length_app, Hshown. cbn [length].
  split; [exact Hpage | lia].
Qed.

Lemma next_page_press (ch : Z) (r : readings) (w : world) :
  exists w',
    next_page ch "press" r w = Ok w'
    /\ current_page w' = (current_page w + 1) mod total_pages.
Proof.
  unfold next_page. cbn [String.eqb Ascii.eqb Bool.eqb].
  destruct (update_display_ok r (set_page w ((current_page w + 1) mod total_pages)))
    as (w' & Hrun & Hpage & _).
  exists w'. split; [exact Hrun | exact Hpage].
Qed.

Lemma prev_page_press (ch : Z) (r : readings) (w : world) :
  exists w',
    prev_page ch "press" r w = Ok w'
    /\ current_page w' = (current_page w - 1) mod total_pages.
Proof.
  unfold prev_page. cbn [String.eqb Ascii.eqb Bool.eqb].
  destruct (update_display_ok r (set_page w ((current_page w - 1) mod total_pages)))
    as (w' & Hrun & Hpage & _).
  exists w'. split; [exact Hrun | exact Hpage].
Qed.

Lemma not_press (event : string) :
  event <> "press"%string -> String.eqb event "press" = false.
Proof. intros H. apply String.eqb_neq, H. Qed.

(** Every input leaves a valid page valid, and never raises. *)
Lemma step_valid (i : input) (w : world) :
  0 <= current_page w < total_pages ->
  exists w', step i w = Ok w' /\ 0 <= current_page w' < total_pages.
Proof.
  intros Hvalid. destruct i as [r | ch event r]; cbn [step].
  - destruct (update_display_ok r w) as (w' & -> & Hpage & _).
    exists w'. split; [reflexivity | lia].
  - assert (Hmod : forall k, 0 <= k mod total_pages < total_pages)
      by (intros k; apply Z.mod_pos_bound; reflexivity).
    destruct (ch =? 3); [| destruct (ch =? 5)].
    + unfold prev_page. destruct (String.eqb event "press").
      * destruct (update_display_ok r
                    (set_page w ((current_page w - 1) mod total_pages)))
          as (w' & -> & Hpage & _).
        exists w'. split; [reflexivity |]. rewrite Hpage. apply Hmod.
      * exists w. split; [reflexivity | exact Hvalid].
    + unfold next_page. destruct (String.eqb event "press").
      * destruct (update_display_ok r
                    (set_page w ((current_page w + 1) mod total_pages)))
          as (w' & -> & Hpage & _).
        exists w'. split; [reflexivity |]. rewrite Hpage. apply Hmod.
      * exists w. split; [reflexivity | exact Hvalid].
    + exists w. split; [reflexivity | exact Hvalid].
Qed.

Lemma run_valid (inputs : list input) : forall w : world,
  0 <= current_page w < total_pages ->
  exists w', run inputs w = Ok w' /\ 0 <= current_page w' < total_pages.
Proof.
  induction inputs as [| i rest IH]; intros w Hvalid.
  - exists w. split; [reflexivity | exact Hvalid].
  - cbn [run]. destruct (step_valid i w Hvalid) as (w1 & -> & Hvalid1).
    cbn [bind]. apply IH, Hvalid1.
Qed.

(** C5: with N = [total_pages] = 3, a press of the previous-page button on
    page 0 leads to page N - 1, a press of the next-page button on page N - 1
    leads to page 0, N presses of the next-page button lead back to the page
    they started from, and after any sequence of update passes and touch
    events, from the initial state (page 0) or from any state with a valid
    page, the program has not raised and the current page is in
    {0, ..., N - 1}. *)
Theorem C5_pages_wrap (w : world) (ch : Z) (r1 r2 r3 : readings)
    (Hvalid : 0 <= current_page w < total_pages) :
  total_pages = 3
  /\ (current_page w = 0 ->
      exists w', prev_page ch "press" r1 w = Ok w'
                 /\ current_page w' = total_pages - 1)
  /\ (current_page w = total_pages - 1 ->
      exists w', next_page ch "press" r1 w = Ok w' /\ current_page w' = 0)
  /\ (exists w1 w2 w3,
        next_page ch "press" r1 w = Ok w1
        /\ next_page ch "press" r2 w1 = Ok w2
        /\ next_page ch "press" r3 w2 = Ok w3
        /\ current_page w3 = current_page w)
  /\ (forall inputs : list input,
        exists w', run inputs w = Ok w'
                   /\ 0 <= current_page w' < total_pages)
  /\ (forall inputs : list input,
        exists w', run inputs initial_world = Ok w'
                   /\ 0 <= current_page w' < total_pages).
Proof.
  split; [reflexivity |]. split; [| split; [| split; [| split]]].
  - intros H0. destruct (prev_page_press ch r1 w) as (w' & Hrun & Hpage).
    exists w'. split; [exact Hrun |]. rewrite Hpage, H0. reflexivity.
  - intros Hlast. destruct (next_page_press ch r1 w) as (w' & Hrun & Hpage).
    exists w'. split; [exact Hrun |]. rewrite Hpage, Hlast. reflexivity.
  - destruct (next_page_press ch r1 w) as (w1 & Hrun1 & Hpage1).
    destruct (next_page_press ch r2 w1) as (w2 & Hrun2 & Hpage2).
    destruct (next_page_press ch r3 w2) as (w3 & Hrun3 & Hpage3).
    exists w1, w2, w3. repeat split; try assumption.
    rewrite Hpage3, Hpage2, Hpage1. unfold total_pages in *.
    assert (Hcases : current_page w = 0 \/ current_page w = 1
                     \/ current_page w = 2) by lia.
    destruct Hcases as [H | [H | H]]; rewrite H; reflexivity.
  - intros inputs. apply run_valid, Hvalid.
  - intros inputs. apply run_valid. cbn. unfold total_pages. lia.
Qed.

Lemma C5_pages_wrap_witness :
  exists w', prev_page 3 "press" sample_readings initial_world = Ok w'
             /\ current_page w' = total_pages - 1.
Proof.
  assert (Hvalid : 0 <= current_page initial_world < total_pages)
    by (split; [apply Z.le_refl | reflexivity]).
  pose proof (C5_pages_wrap initial_world 3 sample_readings sample_readings
                            sample_readings Hvalid) as H.
  destruct H as (_ & Hprev & _).
  exact (Hprev eq_refl).
Defined.

(** C10: for every event other than ['press'], the next-page handler and the
    previous-page handler return with the program state unchanged: the same
    current page, the same series and snapshot, and no image shown. *)
Theorem C10_other_events_ignored (ch : Z) (event : string) (r : readings)
    (w : world) (Hevent : event <> "press"%string) :
  next_page ch event r w = Ok w
  /\ prev_page ch event r w = Ok w
  /\ (forall w1 w2,
        next_page ch event r w = Ok w1 -> prev_page ch event r w = Ok w2 ->
        current_page w1 = current_page w /\ shown w1 = shown w
        /\ current_page w2 = current_page w /\ shown w2 = shown w).
Proof.
  unfold next_page, prev_page. rewrite (not_press event Hevent).
  split; [reflexivity |]. split; [reflexivity |].
  intros w1 w2 H1 H2. injection H1 as <-. injection H2 as <-. repeat split.
Qed.

Lemma C10_other_events_ignored_witness :
  next_page 5 "release" sample_readings sample_world = Ok sample_world
  /\ prev_page 5 "release" sample_readings sample_world = Ok sample_world.
Proof.
  assert (Hevent : "release"%string <> "press"%string) by discriminate.
  pose proof (C10_other_events_ignored 5 "release" sample_readings sample_world
                                       Hevent) as H.
  destruct H as (Hnext & Hprev & _).
  split; [exact Hnext | exact Hprev].
Defined.

(** ** The rolling series of the program *)

Lemma append_full {A : Type} (d : Deque.deque A) (x : A) (n : nat) :
  Deque.len d = n -> Deque.maxlen d = n ->
  Deque.len (Deque.append d x) = n /\ Deque.maxlen (Deque.append d x) = n.
Proof.
  intros Hlen Hmax. split; [| exact Hmax].
  rewrite append_len by lia. lia.
Qed.

Lemma initial_series_full : series_full initial_world.
Proof.
  unfold series_full, initial_world. cbn [cpu_history net_history].
  unfold Deque.new at 2 4. rewrite !pushes_maxlen. cbn [Deque.maxlen].
  rewrite <- (repeat_length 0%Q (Z.to_nat WIDTH)) at 2 5.
  rewrite new_full_len, repeat_length. repeat split.
Qed.

Lemma update_display_series (r : readings) (w : world) :
  series_full w ->
  exists w', update_display r w = Ok w' /\ series_full w'.
Proof.
  intros Hfull. unfold update_display.
  destruct (current_page w =? 0); [| destruct (current_page w =? 1);
                                     [| destruct (current_page w =? 2)]].
  1, 2, 4: cbn [bind]; eexists; split; [reflexivity | exact Hfull].
  destruct (draw_page_2_ok (try_except (r_truetype r FONT_SIZE) DefaultFont) r w)
    as (w' & rest & -> & _ & Hcpu & Hnet & _ & _).
  cbn [bind]. eexists. split; [reflexivity |].
  destruct Hfull as (Hc1 & Hc2 & Hn1 & Hn2).
  unfold series_full. cbn [cpu_history net_history]. rewrite Hcpu, Hnet.
  destruct (append_full (cpu_history w) (get_cpu_usage r) _ Hc1 Hc2).
  destruct (append_full (net_history w)
              (net_scaled
                 (snd (get_network_usage (r_net_io_counters r) (r_time r)
                         (last_net_io w)))) _ Hn1 Hn2).
  repeat split; assumption.
Qed.

Lemma step_series (i : input) (w : world) :
  series_full w -> exists w', step i w = Ok w' /\ series_full w'.
Proof.
  intros Hfull. destruct i as [r | ch event r]; cbn [step].
  - apply update_display_series, Hfull.
  - destruct (ch =? 3); [| destruct (ch =? 5)].
    + unfold prev_page. destruct (String.eqb event "press").
      * apply update_display_series. exact Hfull.
      * exists w. split; [reflexivity | exact Hfull].
    + unfold next_page. destruct (String.eqb event "press").
      * apply update_display_series. exact Hfull.
      * exists w. split; [reflexivity | exact Hfull].
    + exists w. split; [reflexivity | exact Hfull].
Qed.

Lemma run_series (inputs : list input) : forall w : world,
  series_full w -> exists w', run inputs w = Ok w' /\ series_full w'.
Proof.
  induction inputs as [| i rest IH]; intros w Hfull.
  - exists w. split; [reflexivity | exact Hfull].
  - cbn [run]. destruct (step_series i w Hfull) as (w1 & -> & Hfull1).
    cbn [bind]. apply IH, Hfull1.
Qed.

(** C4: a rolling series created as [deque([0] * WIDTH, maxlen=WIDTH)] has
    exactly [WIDTH] = 128 items after any sequence of appends, the empty one
    included (the items are then the zeros it was created with), and after
    at least [WIDTH] appends its items are the last [WIDTH] appended values,
    oldest first.  In the program, [cpu_history] and [net_history] have 128
    items after any sequence of update passes and touch events. *)
Theorem C4_rolling_series_window {A : Type} (zero : A) (pushed : list A) :
  let W := Z.to_nat WIDTH in
  let series := fold_left Deque.append pushed (Deque.new (repeat zero W) W) in
  W = 128%nat
  /\ Deque.len series = W
  /\ Deque.items (Deque.new (repeat zero W) W) = repeat zero W
  /\ ((W <= length pushed)%nat ->
      Deque.items series = drop (length pushed - W) pushed)
  /\ (forall inputs : list input,
        exists w',
          run inputs initial_world = Ok w'
          /\ Deque.len (cpu_history w') = W
          /\ Deque.len (net_history w') = W).
Proof.
  intros W series.
  assert (Hnew : Deque.items (Deque.new (repeat zero W) W) = repeat zero W).
  { rewrite new_items, repeat_length, Nat.sub_diag. reflexivity. }
  assert (Hitems : Deque.items series
                   = drop (length (repeat zero W ++ pushed) - W)
                          (repeat zero W ++ pushed)).
  { subst series. rewrite pushes_items.
    - rewrite Hnew. unfold Deque.new. rewrite pushes_maxlen. reflexivity.
    - unfold Deque.len. rewrite Hnew, repeat_length.
      unfold Deque.new. rewrite pushes_maxlen. cbn. lia. }
  split; [reflexivity |]. split; [| split; [exact Hnew | split]].
  - unfold Deque.len.
    rewrite Hitems, length_drop, length_app, repeat_length. lia.
  - intros Hmany. rewrite Hitems, length_app, repeat_length.
    rewrite drop_app_ge by (rewrite repeat_length; lia).
    rewrite repeat_length. f_equal. lia.
  - intros inputs.
    destruct (run_series inputs initial_world initial_series_full)
      as (w' & Hrun & Hcpu & _ & Hnet & _).
    exists w'. repeat split; assumption.
Qed.

Lemma C4_rolling_series_window_witness :
  Deque.items (fold_left Deque.append (seq 0 130)
                 (Deque.new (repeat 0%nat 128) 128))
  = seq 2 128.
Proof.
  apply (C4_rolling_series_window 0%nat (seq 0 130)). vm_compute. lia.
Defined.

(** * Further properties of the program *)

(** ** Metric sources *)

(** X1: [get_cpu_temp] is unavailable exactly when
    [psutil.sensors_temperatures()] raises, or lists ['cpu_thermal'] with no
    entry, or lacks ['cpu_thermal'] while the thermal zone file cannot be
    read; the file is not consulted in the first two cases.  A listed sensor
    entry wins over the file, and the file value is divided by 1000. *)
Theorem X1_cpu_temp_sources (r : readings) :
  (get_cpu_temp r = None <->
   (exists e, r_sensors_temperatures r = Raise e)
   \/ (exists temp, r_sensors_temperatures r = Ok temp
                    /\ temp !! "cpu_thermal"%string = Some [])
   \/ (exists temp e, r_sensors_temperatures r = Ok temp
                      /\ temp !! "cpu_thermal"%string = None
                      /\ r_thermal_zone0 r = Raise e))
  /\ (forall temp current others,
        r_sensors_temperatures r = Ok temp ->
        temp !! "cpu_thermal"%string = Some (current :: others) ->
        get_cpu_temp r = Some current)
  /\ (forall temp raw,
        r_sensors_temperatures r = Ok temp ->
        temp !! "cpu_thermal"%string = None ->
        r_thermal_zone0 r = Ok raw ->
        get_cpu_temp r = Some (raw / 1000)%Q).
Proof.
  unfold get_cpu_temp. split; [| split].
  - destruct (r_sensors_temperatures r) as [temp | e] eqn:Hs; cbn.
    + destruct (temp !! "cpu_thermal"%string) as [[| current others] |] eqn:Hk;
        cbn.
      * split; [intros _; right; left; exists temp; split; [reflexivity | exact Hk]
               | reflexivity].
      * split; [discriminate |].
        intros [[e He] | [(t & Ht & Hk') | (t & e & Ht & Hk' & _)]];
          [discriminate | |]; injection Ht as <-; congruence.
      * destruct (r_thermal_zone0 r) as [raw | e] eqn:Hz; cbn.
        -- split; [discriminate |].
           intros [[e He] | [(t & Ht & Hk') | (t & e & Ht & _ & Hz')]];
             [discriminate | injection Ht as <-; congruence | discriminate].
        -- split; [| reflexivity]. intros _. right. right.
           exists temp, e. repeat split; [exact Hk].
    + split; [intros _; left; exists e; reflexivity | reflexivity].
  - intros temp current others Hs Hk. rewrite Hs. cbn. rewrite Hk. reflexivity.
  - intros temp raw Hs Hk Hz. rewrite Hs. cbn. rewrite Hk, Hz. reflexivity.
Qed.

Lemma X1_cpu_temp_sources_witness :
  get_cpu_temp
    (Readings (Raise OSError) (Raise OSError) (Raise OSError) 0
              (fun _ => Raise OSError) (Usage 50 1 2) 25
              (Raise AttributeError) (Ok 41000%Q) (Ok (NetIO 0 0)) 0
              (fun size => Ok (TrueType size)))
  = None.
Proof.
  apply X1_cpu_temp_sources. left. exists AttributeError. reflexivity.
Defined.

(** X2: [is_copyparty_running] answers yes exactly when [systemctl] ran and
    printed [active], or [systemctl] ran with another output and [pgrep] ran
    with a non-empty one.  A failing [systemctl] gives no, whatever [pgrep]
    would find. *)
Theorem X2_copyparty_detection (r : readings) :
  (is_copyparty_running r = true <->
   r_systemctl r = Ok "active"%string
   \/ (exists out found,
         r_systemctl r = Ok out /\ out <> "active"%string
         /\ r_pgrep r = Ok found /\ found <> ""%string))
  /\ (forall e, r_systemctl r = Raise e -> is_copyparty_running r = false).
Proof.
  unfold is_copyparty_running. split.
  - destruct (r_systemctl r) as [out | e] eqn:Hs; cbn.
    + destruct (String.eqb_spec out "active") as [-> | Hne]; cbn.
      * split; [intros _; left; reflexivity | reflexivity].
      * destruct (r_pgrep r) as [found | e] eqn:Hp; cbn.
        -- destruct found as [| a found']; cbn.
           ++ split; [discriminate |].
              intros [H | (o & f & _ & _ & Hf & Hnz)]; [congruence |].
              injection Hf as <-. contradiction.
           ++ split; [| reflexivity]. intros _. right.
              exists out, (String a found'). repeat split; try assumption.
              discriminate.
        -- split; [discriminate |].
           intros [H | (o & f & _ & _ & Hf & _)]; [congruence | discriminate].
    + split; [discriminate |].
      intros [H | (o & f & Ho & _)]; discriminate.
  - intros e ->. reflexivity.
Qed.

Lemma X2_copyparty_detection_witness :
  is_copyparty_running
    (Readings (Raise OSError) (Ok "inactive"%string) (Ok "4242"%string) 0
              (fun _ => Raise OSError) (Usage 50 1 2) 25
              (Ok ∅) (Ok 0%Q) (Ok (NetIO 0 0)) 0
              (fun size => Ok (TrueType size)))
  = true.
Proof.
  apply X2_copyparty_detection. right. exists "inactive"%string, "4242"%string.
  repeat split; discriminate.
Defined.


(** ** Pages 0 and 1 *)

(** X3: page 0 adds exactly four text calls after the calls already made,
    whatever fails; when the socket raises the address line reads
    [No network], when [systemctl] raises the status line reads [Stopped],
    and when it prints [active] the status line names port 8080. *)
Theorem X3_page_0_lines (draw : drawing) (f : font) (r : readings) :
  length (draw_page_0 draw f r) = (length draw + 4)%nat
  /\ take (length draw) (draw_page_0 draw f r) = draw
  /\ (forall e, r_socket_ip r = Raise e ->
      In (DText (2, 2) [Lit "IP: "; FmtStr "No network"] f 1)
         (draw_page_0 draw f r))
  /\ (forall e, r_systemctl r = Raise e ->
      In (DText (2, 18) [Lit "Copyparty: "; Lit "Stopped"] f 1)
         (draw_page_0 draw f r))
  /\ (r_systemctl r = Ok "active"%string ->
      In (DText (2, 18) [Lit "Copyparty: "; Lit "Port "; FmtInt 8080] f 1)
         (draw_page_0 draw f r)).
Proof.
  unfold draw_page_0. rewrite <- !app_assoc. cbn [app].
  split; [rewrite length_app; reflexivity |].
  split; [rewrite take_app_length; reflexivity |].
  split; [| split].
  - intros e He. apply in_or_app. right. left.
    unfold get_local_ip. rewrite He. reflexivity.
  - intros e He. apply in_or_app. right. right. left.
    unfold is_copyparty_running. rewrite He. reflexivity.
  - intros Hactive. apply in_or_app. right. right. left.
    unfold is_copyparty_running. rewrite Hactive. reflexivity.
Qed.

Lemma X3_page_0_lines_witness :
  In (DText (2, 2) [Lit "IP: "; FmtStr "No network"] DefaultFont 1)
     (draw_page_0 [] DefaultFont sample_readings).
Proof.
  destruct (X3_page_0_lines [] DefaultFont sample_readings)
    as (_ & _ & Hip & _).
  apply (Hip OSError). reflexivity.
Defined.

Lemma get_disk_usage_none (r : readings) (path : string) :
  get_disk_usage r path = None <-> exists e, r_disk_usage r path = Raise e.
Proof.
  unfold get_disk_usage. destruct (r_disk_usage r path) as [disk | e]; cbn.
  - split; [discriminate | intros [e He]; discriminate].
  - split; [intros _; exists e; reflexivity | reflexivity].
Qed.

(** X4: page 1 draws the line [NVMe: N/A] exactly when the usage of
    [/mnt/storage] cannot be read, draws no line at (2, 2) exactly when the
    usage of [/] cannot be read, always ends with the RAM line at (2, 50),
    and makes two to four text calls. *)
Theorem X4_page_1_lines (f : font) (r : readings) :
  let page := draw_page_1 [] f r in
  (In (DText (2, 18) [Lit "NVMe: N/A"] f 1) page
   <-> exists e, r_disk_usage r "/mnt/storage" = Raise e)
  /\ ((forall text, ~ In (DText (2, 2) text f 1) page)
      <-> exists e, r_disk_usage r "/" = Raise e)
  /\ (exists pct u t,
        get_memory_usage r = (pct, u, t)
        /\ List.last page (DLine (0, 0) (0, 0) 0)
           = DText (2, 50)
               [Lit "RAM: "; FmtFix 0 pct; Lit "% ("; FmtFix 1 u; Lit "/";
                FmtFix 1 t; Lit "GB)"] f 1)
  /\ (2 <= length page <= 4)%nat.
Proof.
  intros page. subst page. unfold draw_page_1.
  rewrite <- !get_disk_usage_none.
  destruct (get_memory_usage r) as [[pct u] t].
  destruct (get_disk_usage r "/") as [[[sd_pct sd_used] sd_total] |];
    destruct (get_disk_usage r "/mnt/storage")
      as [[[nvme_pct nvme_used] nvme_total] |];
    cbn [app].
  all: split; [| split; [| split]].
  all: try (exists pct, u, t; split; reflexivity).
  all: try (cbn [length]; lia).
  all: cbn [In].
  all: try (split; [intros H; decompose [or] H; discriminate || contradiction
                   | discriminate]).
  all: try (split; [intros _; reflexivity | intros _; left; reflexivity]).
  all: try (split; [intros _; reflexivity | intros _; right; left; reflexivity]).
  all: try (split; [intros H; exfalso; eapply H; left; reflexivity
                   | discriminate]).
  all: split; [intros _; reflexivity
              | intros _ text H; decompose [or] H; discriminate || contradiction].
Qed.

Lemma X4_page_1_lines_witness :
  In (DText (2, 18) [Lit "NVMe: N/A"] DefaultFont 1)
     (draw_page_1 [] DefaultFont sample_readings).
Proof.
  destruct (X4_page_1_lines DefaultFont sample_readings) as (Hnvme & _).
  apply Hnvme. exists OSError. reflexivity.
Defined.

(** ** More on the rate estimator *)

Lemma scaled_zero (d e : Q) :
  (0 < e)%Q -> (d / 1024 / e == 0)%Q -> (d == 0)%Q.
Proof.
  intros He H.
  assert (E : (d == d / 1024 / e * (e * 1024))%Q) by (field; lra).
  rewrite E, H. ring.
Qed.

(** X5: when neither counter has decreased since the stored snapshot, the
    returned rate is not negative, whatever the clock; it is 0 when both
    counters are unchanged, and, with time advanced, only when the total is
    unchanged.  The value page 2 derives from it lies in [0, 100]. *)
Theorem X5_rate_of_growing_counters (c : net_io_counters) (t : Q)
    (last : snapshot)
    (Hsent : snap_bytes_sent last <= bytes_sent c)
    (Hrecv : snap_bytes_recv last <= bytes_recv c) :
  let rate := snd (get_network_usage (Ok c) t (Some last)) in
  (0 <= rate)%Q
  /\ (bytes_sent c = snap_bytes_sent last ->
      bytes_recv c = snap_bytes_recv last -> (rate == 0)%Q)
  /\ ((snap_time last < t)%Q -> (rate == 0)%Q ->
      bytes_sent c + bytes_recv c
      = snap_bytes_sent last + snap_bytes_recv last)
  /\ (0 <= net_scaled rate <= 100)%Q.
Proof.
  intros rate.
  set (delta := bytes_sent c + bytes_recv c
                - (snap_bytes_sent last + snap_bytes_recv last)).
  assert (Hdelta : (0 <= inject_Z delta)%Q).
  { change 0%Q with (inject_Z 0). rewrite <- Zle_Qle. subst delta. lia. }
  assert (Hcases :
            ((snap_time last < t)%Q
             /\ (rate == inject_Z delta / 1024 / (t - snap_time last))%Q)
            \/ rate = 0%Q).
  { destruct (Qlt_le_dec (snap_time last) t) as [Hlt | Hle].
    - left. split; [exact Hlt |]. apply rate_formula, Hlt.
    - right. subst rate. unfold get_network_usage.
      rewrite (stalled_call c t last Hle). reflexivity. }
  assert (Hnonneg : (0 <= rate)%Q).
  { destruct Hcases as [[Hlt Hrate] | ->]; [| apply Qle_refl].
    rewrite Hrate. apply Qle_shift_div_l; [lra |].
    apply Qle_shift_div_l; [reflexivity | lra]. }
  split; [exact Hnonneg |]. split; [| split].
  - intros Hs Hr. destruct Hcases as [[Hlt Hrate] | ->]; [| reflexivity].
    rewrite Hrate. replace delta with 0 by (subst delta; lia).
    unfold Qdiv. rewrite !Qmult_0_l. reflexivity.
  - intros Hlt Hzero. destruct Hcases as [[_ Hrate] | Hr0].
    + rewrite Hrate in Hzero.
      assert (Hd0 : (inject_Z delta == 0)%Q)
        by (apply (scaled_zero _ (t - snap_time last)); [lra | exact Hzero]).
      unfold Qeq in Hd0. cbn in Hd0. subst delta. lia.
    + assert (Hform := proj2 (rate_formula c t last Hlt)).
      fold rate in Hform. fold delta in Hform. rewrite Hr0 in Hform.
      assert (Hd0 : (inject_Z delta == 0)%Q)
        by (apply (scaled_zero _ (t - snap_time last));
            [lra | symmetry; exact Hform]).
      unfold Qeq in Hd0. cbn in Hd0. subst delta. lia.
  - pose proof (scaled_tenth rate) as Hs.
    destruct (net_scaled_cases rate) as [[Hle ->] | [Hgt ->]]; lra.
Qed.

Lemma X5_rate_of_growing_counters_witness :
  (snd (get_network_usage (Ok (NetIO 100 200)) 12 (Some (Snapshot 100 200 10)))
   == 0)%Q.
Proof.
  assert (Hsent : 100 <= 100) by lia.
  assert (Hrecv : 200 <= 200) by lia.
  destruct (X5_rate_of_growing_counters (NetIO 100 200) 12
              (Snapshot 100 200 10) Hsent Hrecv) as (_ & Hzero & _).
  apply Hzero; reflexivity.
Defined.

Lemma last_cons_default {A : Type} (l : list A) (a d : A) :
  List.last (a :: l) d = List.last l a.
Proof.
  revert a d. induction l as [| b l IH]; intros a d; [reflexivity |].
  change (List.last (a :: b :: l) d) with (List.last (b :: l) d).
  rewrite !IH. reflexivity.
Qed.

(** X6: over successive calls with an advancing clock, starting from a stored
    snapshot, each call returns a rate and stores its reading, and the rates
    weighted by the seconds between the calls add up to the bytes counted
    between the first snapshot and the last reading, divided by 1024:
    nothing is lost or counted twice. *)
Theorem X6_rates_add_up (calls : list (net_io_counters * Q)) (last : snapshot)
    (Hclock : increasing (snap_time last) calls) :
  let fin := List.last (map (fun ct => stored (fst ct) (snd ct)) calls) last in
  length (fst (poll calls (Some last))) = length calls
  /\ snd (poll calls (Some last)) = Some fin
  /\ (transferred (snap_time last) calls (fst (poll calls (Some last)))
      == inject_Z ((snap_bytes_sent fin + snap_bytes_recv fin)
                   - (snap_bytes_sent last + snap_bytes_recv last)) / 1024)%Q.
Proof.
  revert last Hclock.
  induction calls as [| [c t] rest IH]; intros last Hinc fin.
  - subst fin. cbn. repeat split.
    rewrite Z.sub_diag. reflexivity.
  - destruct Hinc as [Hlt Hrest]. cbn [poll].
    destruct (rate_formula c t last Hlt) as [Hst Hrate].
    destruct (get_network_usage (Ok c) t (Some last)) as [last' rate] eqn:Hcall.
    cbn [fst snd] in Hst, Hrate. subst last'.
    specialize (IH (stored c t) Hrest). cbn zeta in IH.
    destruct (poll rest (Some (stored c t))) as [rates final] eqn:Hpoll.
    cbn [fst snd] in IH |- *. destruct IH as (Hlen & Hfinal & Hsum).
    assert (Hfin : fin = List.last
                           (map (fun ct => stored (fst ct) (snd ct)) rest)
                           (stored c t)).
    { subst fin. cbn [map fst snd]. apply last_cons_default. }
    rewrite <- Hfin in Hfinal, Hsum.
    split; [cbn [length]; congruence |]. split; [exact Hfinal |].
    cbn [transferred]. rewrite Hsum, Hrate.
    cbn [stored snap_bytes_sent snap_bytes_recv snap_time].
    set (a := bytes_sent c + bytes_recv c
              - (snap_bytes_sent last + snap_bytes_recv last)).
    set (b := snap_bytes_sent fin + snap_bytes_recv fin
              - (bytes_sent c + bytes_recv c)).
    replace (snap_bytes_sent fin + snap_bytes_recv fin
             - (snap_bytes_sent last + snap_bytes_recv last))
      with (a + b) by (subst a b; lia).
    rewrite inject_Z_plus. field. lra.
Qed.

Lemma X6_rates_add_up_witness :
  (transferred 10 [(NetIO 150 250, 12%Q); (NetIO 1174 250, 13%Q)]
     (fst (poll [(NetIO 150 250, 12%Q); (NetIO 1174 250, 13%Q)]
                (Some (Snapshot 100 200 10))))
   == inject_Z (1174 + 250 - (100 + 200)) / 1024)%Q.
Proof.
  apply (X6_rates_add_up [(NetIO 150 250, 12%Q); (NetIO 1174 250, 13%Q)]
                         (Snapshot 100 200 10)).
  cbn. repeat split; reflexivity.
Defined.

(** X7: the scaling of page 2 keeps the order of the rates: a larger rate
    never gives a smaller graph value, and every rate from 1000 KB/s on gives
    the same value 100. *)
Theorem X7_net_scaled_monotone (rate1 rate2 : Q) (Hle : (rate1 <= rate2)%Q) :
  (net_scaled rate1 <= net_scaled rate2)%Q
  /\ ((1000 <= rate1)%Q -> (net_scaled rate1 == 100)%Q
                          /\ (net_scaled rate2 == 100)%Q).
Proof.
  pose proof (scaled_tenth rate1) as H1. pose proof (scaled_tenth rate2) as H2.
  destruct (net_scaled_cases rate1) as [[Ha ->] | [Ha ->]];
    destruct (net_scaled_cases rate2) as [[Hb ->] | [Hb ->]];
    split; try lra; intros Hbig; split; lra.
Qed.

Lemma X7_net_scaled_monotone_witness :
  (net_scaled 250 <= net_scaled 2000)%Q.
Proof.
  apply (X7_net_scaled_monotone 250 2000). discriminate.
Defined.

(** ** More on the graph renderer *)

Lemma graph_values_split (data : list Q) :
  Exists (fun v => (0 < v)%Q) data \/ Forall (fun v => (v <= 0)%Q) data.
Proof.
  induction data as [| v rest IH]; [right; constructor |].
  destruct (Qlt_le_dec 0 v) as [Hpos | Hneg].
  - left. constructor. exact Hpos.
  - destruct IH as [Hex | Hall].
    + left. apply Exists_cons_tl, Hex.
    + right. constructor; assumption.
Qed.

Lemma draw_graph_loop_zero_ceiling (y_start height : Z) (max_value : Q)
    (data : list Q) :
  (max_value == 0)%Q ->
  Exists (fun v => (0 < v)%Q) data ->
  forall (draw : drawing) (x : Z),
    draw_graph_loop draw x data y_start height max_value
    = Raise ZeroDivisionError.
Proof.
  intros Hm Hex. induction Hex as [v rest Hv | v rest _ IH]; intros draw x.
  - cbn [draw_graph_loop]. apply Qltb_lt in Hv. rewrite Hv.
    unfold bar_height, truediv.
    apply Qeq_bool_iff in Hm. rewrite Hm. reflexivity.
  - cbn [draw_graph_loop]. destruct (Qltb 0 v).
    + unfold bar_height, truediv.
      apply Qeq_bool_iff in Hm. rewrite Hm. reflexivity.
    + apply IH.
Qed.

(** X8: when [draw_graph] raises.  An empty series makes no call at all, not
    even the border, whatever the height and the ceiling.  For a non-empty
    series, a height <= 0 makes the border rectangle itself raise
    [ValueError], whatever the ceiling; with a height >= 1 and the ceiling 0,
    a series with a positive value raises [ZeroDivisionError], and a series
    without one draws the border and nothing else. *)
Theorem X8_draw_graph_raises (draw : drawing) (data : Deque.deque Q)
    (y_start height : Z) (max_value : Q) :
  (Deque.items data = [] ->
   draw_graph draw data y_start height max_value = Ok draw)
  /\ (Deque.items data <> [] -> height <= 0 ->
      draw_graph draw data y_start height max_value = Raise ValueError)
  /\ (1 <= height -> (max_value == 0)%Q ->
      Exists (fun v => (0 < v)%Q) (Deque.items data) ->
      draw_graph draw data y_start height max_value = Raise ZeroDivisionError)
  /\ (1 <= height -> (max_value == 0)%Q -> Deque.items data <> [] ->
      Forall (fun v => (v <= 0)%Q) (Deque.items data) ->
      draw_graph draw data y_start height max_value
      = Ok (draw
            ++ [DRectangle (0, y_start) (WIDTH - 1, y_start + height - 1)
                           1 0])).
Proof.
  split; [| split; [| split]].
  - intros Hempty. unfold draw_graph, Deque.len. rewrite Hempty. reflexivity.
  - intros Hdata Hh. unfold draw_graph, Deque.len.
    destruct (Deque.items data) as [| v rest]; [contradiction |].
    cbn [length Nat.eqb]. unfold draw_rectangle. cbn [fst snd].
    replace (y_start + height - 1 <? y_start) with true
      by (symmetry; apply Z.ltb_lt; lia).
    rewrite orb_true_r. reflexivity.
  - intros Hh Hzero Hex. unfold draw_graph, Deque.len.
    destruct (Deque.items data) as [| v rest] eqn:E; [inversion Hex |].
    cbn [length Nat.eqb]. rewrite draw_rectangle_ok by exact Hh. cbn [bind].
    apply draw_graph_loop_zero_ceiling; assumption.
  - intros Hh Hzero Hdata Hflat. unfold draw_graph, Deque.len.
    destruct (Deque.items data) as [| v rest] eqn:E; [contradiction |].
    cbn [length Nat.eqb]. rewrite draw_rectangle_ok by exact Hh. cbn [bind].
    apply draw_graph_loop_flat. exact Hflat.
Qed.

Lemma X8_draw_graph_raises_witness :
  draw_graph [] (Deque.new (50%Q :: repeat 0%Q 127) 128) 12 20 0
  = Raise ZeroDivisionError
  /\ draw_graph [] (Deque.new (50%Q :: repeat 0%Q 127) 128) 12 0 100
     = Raise ValueError.
Proof.
  split.
  - apply (X8_draw_graph_raises
             [] (Deque.new (50%Q :: repeat 0%Q 127) 128) 12 20 0);
      [lia | reflexivity |].
    vm_compute. constructor. reflexivity.
  - apply (X8_draw_graph_raises
             [] (Deque.new (50%Q :: repeat 0%Q 127) 128) 12 0 100);
      [vm_compute; discriminate | lia].
Defined.

Lemma py_int_monotone (q1 q2 : Q) :
  (0 <= q1)%Q -> (q1 <= q2)%Q -> 0 <= py_int q1 <= py_int q2.
Proof.
  destruct q1 as [n1 d1], q2 as [n2 d2]. unfold Qle, py_int. cbn.
  intros H0 Hle.
  assert (Hn1 : 0 <= n1) by lia.
  assert (Hn2 : 0 <= n2) by nia.
  rewrite !Z.quot_div_nonneg by lia.
  split; [apply Z.div_pos; lia |].
  apply Z.div_le_lower_bound; [lia |].
  pose proof (Z.mul_div_le n1 (Z.pos d1) ltac:(lia)) as Hfloor.
  nia.
Qed.

(** X9: for a positive ceiling and a region of height >= 2, the bar height of
    a value >= 0 is between 0 and [height - 2], and a larger value never gets
    a shorter bar. *)
Theorem X9_bar_height_monotone (v v' max_value : Q) (height : Z)
    (Hceiling : (0 < max_value)%Q) (Hheight : 2 <= height)
    (Hv : (0 <= v)%Q) (Hle : (v <= v')%Q) :
  exists bar bar',
    bar_height v max_value height = Ok bar
    /\ bar_height v' max_value height = Ok bar'
    /\ 0 <= bar <= bar' /\ bar' <= height - 2.
Proof.
  assert (Hm : ~ (max_value == 0)%Q) by lra.
  exists (bar_of v max_value height), (bar_of v' max_value height).
  rewrite !bar_height_ok by exact Hm.
  split; [reflexivity |]. split; [reflexivity |].
  assert (Hspan : (0 <= round64 (inject_Z (height - 2)))%Q).
  { apply round64_nonneg. change 0%Q with (inject_Z 0).
    rewrite <- Zle_Qle. lia. }
  assert (Hinv : (0 <= / max_value)%Q) by (apply Qinv_le_0_compat; lra).
  assert (Hr0 : (0 <= v / max_value)%Q)
    by (apply Qmult_le_0_compat; assumption).
  assert (Hr : (v / max_value <= v' / max_value)%Q)
    by (apply Qmult_le_compat_r; assumption).
  assert (Hq0 : (0 <= round64 (v / max_value)
                      * round64 (inject_Z (height - 2)))%Q).
  { apply Qmult_le_0_compat; [| exact Hspan].
    apply round64_nonneg, Hr0. }
  assert (Hq : (round64 (v / max_value) * round64 (inject_Z (height - 2))
                <= round64 (v' / max_value)
                   * round64 (inject_Z (height - 2)))%Q).
  { apply Qmult_le_compat_r; [| exact Hspan].
    apply round64_monotone; assumption. }
  pose proof (py_int_monotone _ _ (round64_nonneg _ Hq0)
                (round64_monotone _ _ Hq0 Hq)) as Hint.
  unfold bar_of. lia.
Qed.

Lemma X9_bar_height_monotone_witness :
  exists bar bar',
    bar_height 30 100 20 = Ok bar /\ bar_height 99 100 20 = Ok bar'
    /\ 0 <= bar <= bar' /\ bar' <= 20 - 2.
Proof.
  apply (X9_bar_height_monotone 30 99 100 20);
    [reflexivity | lia | discriminate | discriminate].
Defined.

(** X10: the picture of a graph depends only on the first 126 values of the
    series.  A series of 128 values has its value 126 drawn on column 127,
    the right border, and its newest value 127 on column 128, outside the
    image: two series that agree on their first 126 values give the same
    pixels. *)
Theorem X10_newest_samples_not_visible (data1 data2 : Deque.deque Q)
    (y_start height : Z) (max_value : Q) (img : image)
    (Hsame : take 126 (Deque.items data1) = take 126 (Deque.items data2))
    (Hdata1 : Deque.items data1 <> []) (Hdata2 : Deque.items data2 <> [])
    (Hheight : 1 <= height) (Hceiling : ~ (max_value == 0)%Q) :
  exists img1 img2,
    render (draw_graph [] data1 y_start height max_value) img = Some img1
    /\ render (draw_graph [] data2 y_start height max_value) img = Some img2
    /\ forall px py, img1 px py = img2 px py.
Proof.
  destruct (Z_le_gt_dec 2 height) as [Hh | Hh].
  - apply graph_pictures_agree; assumption.
  - rewrite (draw_graph_lines y_start height max_value [] data1
               Hceiling Hheight Hdata1).
    rewrite (draw_graph_lines y_start height max_value [] data2
               Hceiling Hheight Hdata2).
    rewrite !graph_lines_short by lia.
    cbn [app render paint paint_cmd].
    replace ((0 <=? WIDTH - 1) && (y_start <=? y_start + height - 1)) with true
      by (symmetry; apply andb_true_iff; split; apply Z.leb_le;
          [unfold WIDTH |]; lia).
    eexists _, _. split; [reflexivity |]. split; reflexivity.
Qed.

Lemma X10_newest_samples_not_visible_witness :
  exists img1 img2,
    render (draw_graph [] (Deque.new (repeat 0%Q 126 ++ [100%Q; 100%Q]) 128)
                       12 20 100) blank = Some img1
    /\ render (draw_graph [] (Deque.new (repeat 0%Q 128) 128) 12 20 100) blank
       = Some img2
    /\ forall px py, img1 px py = img2 px py.
Proof.
  apply X10_newest_samples_not_visible.
  - vm_compute. reflexivity.
  - vm_compute. discriminate.
  - vm_compute. discriminate.
  - lia.
  - discriminate.
Defined.

Lemma append_when_full {A : Type} (d : Deque.deque A) (x : A) :
  Deque.len d = Deque.maxlen d -> (0 < Deque.maxlen d)%nat ->
  Deque.items (Deque.append d x) = tail (Deque.items d) ++ [x].
Proof.
  unfold Deque.len, Deque.append. intros Hlen Hpos. cbn [Deque.items].
  rewrite length_app. cbn [length].
  destruct (Nat.ltb_spec (Deque.maxlen d) (length (Deque.items d) + 1));
    [| lia].
  destruct (Deque.items d) as [| a l]; [cbn in Hlen; lia | reflexivity].
Qed.

(** X11: with both series full (128 items), a pass of page 2 drops the oldest
    item of each series, keeps the others in order, and puts the new sample
    last: the CPU load just read, and the scaled network rate.  Both series
    are full again afterwards. *)
Theorem X11_page_2_shifts_series (f : font) (r : readings) (w : world)
    (Hfull : series_full w) :
  exists (w' : world) (d : drawing),
    draw_page_2 [] f r w = Ok (w', d)
    /\ Deque.items (cpu_history w')
       = tail (Deque.items (cpu_history w)) ++ [get_cpu_usage r]
    /\ Deque.items (net_history w')
       = tail (Deque.items (net_history w))
         ++ [net_scaled
               (snd (get_network_usage (r_net_io_counters r) (r_time r)
                       (last_net_io w)))]
    /\ series_full w'.
Proof.
  destruct (draw_page_2_ok f r w)
    as (w' & rest & Hrun & _ & Hcpu & Hnet & _ & _).
  destruct Hfull as (Hc1 & Hc2 & Hn1 & Hn2).
  assert (Hpos : (0 < Z.to_nat WIDTH)%nat) by (vm_compute; lia).
  eexists w', _. split; [exact Hrun |].
  rewrite Hcpu, Hnet.
  rewrite !append_when_full by lia.
  split; [reflexivity |]. split; [reflexivity |].
  unfold series_full. rewrite Hcpu, Hnet.
  destruct (append_full (cpu_history w) (get_cpu_usage r) _ Hc1 Hc2).
  destruct (append_full (net_history w)
              (net_scaled
                 (snd (get_network_usage (r_net_io_counters r) (r_time r)
                         (last_net_io w)))) _ Hn1 Hn2).
  repeat split; assumption.
Qed.

Lemma X11_page_2_shifts_series_witness :
  exists (w' : world) (d : drawing),
    draw_page_2 [] DefaultFont sample_readings initial_world = Ok (w', d)
    /\ Deque.items (cpu_history w')
       = tail (Deque.items (cpu_history initial_world)) ++ [25%Q].
Proof.
  destruct (X11_page_2_shifts_series DefaultFont sample_readings initial_world
              initial_series_full) as (w' & d & Hrun & Hcpu & _).
  exists w', d. split; [exact Hrun | exact Hcpu].
Defined.

(** ** Render passes and touch events *)

(** What one call of [update_display] does to the program state. *)
Lemma update_display_effect (r : readings) (w : world) :
  exists (w' : world) (d : drawing),
    update_display r w = Ok w'
    /\ shown w' = shown w ++ [d]
    /\ current_page w' = current_page w
    /\ (current_page w = 0 ->
        d = draw_page_0 [] (try_except (r_truetype r FONT_SIZE) DefaultFont) r)
    /\ (current_page w <> 2 ->
        cpu_history w' = cpu_history w /\ net_history w' = net_history w
        /\ last_net_io w' = last_net_io w).
Proof.
  unfold update_display.
  destruct (Z.eqb_spec (current_page w) 0) as [H0 | H0];
    [| destruct (Z.eqb_spec (current_page w) 1) as [H1 | H1];
       [| destruct (Z.eqb_spec (current_page w) 2) as [H2 | H2]]].
  1, 2, 4: cbn [bind]; eexists _, _; split; [reflexivity |];
    cbn [shown current_page cpu_history net_history last_net_io];
    repeat split; congruence.
  destruct (draw_page_2_ok (try_except (r_truetype r FONT_SIZE) DefaultFont) r w)
    as (w' & rest & -> & Hpage & _ & _ & _ & Hshown).
  cbn [bind]. eexists _, _. split; [reflexivity |].
  cbn [shown current_page]. rewrite Hshown.
  repeat split; try congruence; contradiction.
Qed.

(** X12: while the current page is not page 2, passes of the update loop
    take no sample: after any number of them the two series and the stored
    counter snapshot are what they were, the page is the same, and one image
    was shown per pass.  (The next rate computed on page 2 therefore spans
    the whole time spent on the other pages.) *)
Theorem X12_no_sampling_off_page_2 (passes : list readings) (w : world)
    (Hpage : current_page w <> 2) :
  exists w',
    run (map Tick passes) w = Ok w'
    /\ cpu_history w' = cpu_history w
    /\ net_history w' = net_history w
    /\ last_net_io w' = last_net_io w
    /\ current_page w' = current_page w
    /\ length (shown w') = (length (shown w) + length passes)%nat.
Proof.
  revert w Hpage. induction passes as [| r rest IH]; intros w Hpage.
  - exists w. cbn. repeat split. lia.
  - cbn [map run step].
    destruct (update_display_effect r w)
      as (w1 & d & -> & Hshown & Hsame & _ & Hkeep).
    destruct (Hkeep Hpage) as (Hcpu & Hnet & Hlast).
    cbn [bind].
    destruct (IH w1 ltac:(congruence))
      as (w' & Hrun & Hcpu' & Hnet' & Hlast' & Hpage' & Hlen).
    exists w'. split; [exact Hrun |].
    repeat split; try congruence.
    rewrite Hlen, Hshown, length_app. cbn [length]. lia.
Qed.

Lemma X12_no_sampling_off_page_2_witness :
  exists w',
    run (map Tick [sample_readings; sample_readings]) initial_world = Ok w'
    /\ cpu_history w' = cpu_history initial_world
    /\ net_history w' = net_history initial_world
    /\ last_net_io w' = last_net_io initial_world
    /\ current_page w' = current_page initial_world
    /\ length (shown w') = (length (shown initial_world) + 2)%nat.
Proof.
  apply (X12_no_sampling_off_page_2 [sample_readings; sample_readings]
                                    initial_world).
  discriminate.
Defined.

Lemma step_shows (i : input) (w : world) :
  exists (w' : world) (extra : list drawing),
    step i w = Ok w'
    /\ shown w' = shown w ++ extra
    /\ length extra = (if renders i then 1 else 0)%nat.
Proof.
  assert (Hshow : forall r w0,
             shown w0 = shown w ->
             exists (w' : world) (extra : list drawing),
               update_display r w0 = Ok w'
               /\ shown w' = shown w ++ extra /\ length extra = 1%nat).
  { intros r w0 Hw0.
    destruct (update_display_effect r w0) as (w' & d & Hrun & Hshown & _).
    exists w', [d]. rewrite <- Hw0. repeat split; assumption. }
  assert (Hstay : exists (w' : world) (extra : list drawing),
             Ok w = Ok w' /\ shown w' = shown w ++ extra
             /\ length extra = 0%nat).
  { exists w, []. rewrite app_nil_r. repeat split. }
  destruct i as [r | ch event r]; cbn [step renders].
  - apply Hshow. reflexivity.
  - unfold prev_page, next_page.
    destruct (ch =? 3); [| destruct (ch =? 5)]; cbn [orb andb];
      try exact Hstay;
      destruct (String.eqb event "press"); try exact Hstay;
      apply Hshow; reflexivity.
Qed.

Lemma run_shows (inputs : list input) : forall w : world,
  exists (w' : world) (extra : list drawing),
    run inputs w = Ok w'
    /\ shown w' = shown w ++ extra
    /\ length extra = length (List.filter renders inputs).
Proof.
  induction inputs as [| i rest IH]; intros w.
  - exists w, []. rewrite app_nil_r. repeat split.
  - cbn [run].
    destruct (step_shows i w) as (w1 & e1 & -> & Hs1 & Hl1). cbn [bind].
    destruct (IH w1) as (w' & e2 & Hrun & Hs2 & Hl2).
    exists w', (e1 ++ e2). split; [exact Hrun |].
    split; [rewrite Hs2, Hs1, app_assoc; reflexivity |].
    rewrite length_app, Hl1, Hl2. cbn [List.filter].
    destruct (renders i); reflexivity.
Qed.

(** X13: a run of the program that completes keeps the images it has shown
    and shows exactly one more image per pass of the update loop and per
    press on channel 3 or 5; releases, held events and other channels show
    nothing. *)
Theorem X13_one_image_per_render (inputs : list input) (w w' : world)
    (Hrun : run inputs w = Ok w') :
  exists extra : list drawing,
    shown w' = shown w ++ extra
    /\ length extra = length (List.filter renders inputs)
    /\ (Forall (fun i => renders i = false) inputs -> shown w' = shown w).
Proof.
  destruct (run_shows inputs w) as (w1 & extra & Hrun1 & Hshown & Hlen).
  assert (w1 = w') as -> by congruence.
  exists extra. repeat split; try assumption.
  intros Hnone.
  assert (Hfilter : List.filter renders inputs = []).
  { clear - Hnone. induction Hnone as [| i rest Hi _ IH]; [reflexivity |].
    cbn [List.filter]. rewrite Hi. exact IH. }
  rewrite Hfilter in Hlen. destruct extra; [| discriminate].
  rewrite Hshown, app_nil_r. reflexivity.
Qed.

Lemma X13_one_image_per_render_witness :
  exists (w' : world) (extra : list drawing),
    run [Touch 5 "release" sample_readings; Tick sample_readings;
         Touch 4 "press" sample_readings] sample_world = Ok w'
    /\ shown w' = shown sample_world ++ extra
    /\ length extra = 1%nat.
Proof.
  pose (inputs := [Touch 5 "release" sample_readings; Tick sample_readings;
                   Touch 4 "press" sample_readings]).
  pose (w' := match run inputs sample_world with
              | Ok w1 => w1
              | Raise _ => sample_world
              end).
  assert (Hrun : run inputs sample_world = Ok w') by (vm_compute; reflexivity).
  destruct (X13_one_image_per_render inputs sample_world w' Hrun)
    as (extra & Hshown & Hlen & _).
  exists w', extra. split; [exact Hrun |]. split; [exact Hshown |].
  exact Hlen.
Defined.

(** X14: on a valid page, a press of the next-page button followed by a
    press of the previous-page button leads back to the page it started
    from, and so does the reverse order; each single press leads to a
    different page. *)
Theorem X14_next_and_previous_cancel (w : world) (ch ch' : Z)
    (r1 r2 : readings) (Hvalid : 0 <= current_page w < total_pages) :
  (exists w1 w2,
      next_page ch "press" r1 w = Ok w1
      /\ prev_page ch' "press" r2 w1 = Ok w2
      /\ current_page w1 <> current_page w
      /\ current_page w2 = current_page w)
  /\ (exists w1 w2,
        prev_page ch "press" r1 w = Ok w1
        /\ next_page ch' "press" r2 w1 = Ok w2
        /\ current_page w1 <> current_page w
        /\ current_page w2 = current_page w).
Proof.
  assert (Hcases : current_page w = 0 \/ current_page w = 1
                   \/ current_page w = 2)
    by (unfold total_pages in Hvalid; lia).
  split.
  - destruct (next_page_press ch r1 w) as (w1 & Hrun1 & Hpage1).
    destruct (prev_page_press ch' r2 w1) as (w2 & Hrun2 & Hpage2).
    exists w1, w2. split; [exact Hrun1 |]. split; [exact Hrun2 |].
    rewrite Hpage2, Hpage1.
    destruct Hcases as [H | [H | H]]; rewrite H; split;
      vm_compute; congruence.
  - destruct (prev_page_press ch r1 w) as (w1 & Hrun1 & Hpage1).
    destruct (next_page_press ch' r2 w1) as (w2 & Hrun2 & Hpage2).
    exists w1, w2. split; [exact Hrun1 |]. split; [exact Hrun2 |].
    rewrite Hpage2, Hpage1.
    destruct Hcases as [H | [H | H]]; rewrite H; split;
      vm_compute; congruence.
Qed.

Lemma X14_next_and_previous_cancel_witness :
  exists w1 w2,
    next_page 5 "press" sample_readings sample_world = Ok w1
    /\ prev_page 3 "press" sample_readings w1 = Ok w2
    /\ current_page w1 <> current_page sample_world
    /\ current_page w2 = current_page sample_world.
Proof.
  assert (Hvalid : 0 <= current_page sample_world < total_pages)
    by (split; [discriminate | reflexivity]).
  destruct (X14_next_and_previous_cancel sample_world 5 3 sample_readings
              sample_readings Hvalid) as [Hround _].
  exact Hround.
Defined.
